(** * Verification of the migration client and the full-text stage helpers

    Shallow embedding of [MigrateClientImpl] (server/tool/src/upgrade.ts) and of
    [loadIndexStageStage] / [traverseFullTextContexts] (indexer utils).

    JavaScript values are modelled by [value]; a JavaScript object is an
    association list [obj] whose order is the enumeration order of its keys
    (objects never hold a key twice). Store calls are recorded in a trace, and
    the store's answers are supplied by the caller of each operation. *)

From Stdlib Require Import String Ascii List ZArith Bool Lia.
From Stdlib Require Import DecimalString.
Import ListNotations.
Open Scope string_scope.

(* ------------------------------------------------------------------ *)
(** ** JavaScript values *)

#[local] Set Warnings "-register-all".
Inductive value : Type :=
| VNull
| VBool (b : bool)
| VNum (n : Z)
| VStr (s : string)
| VArr (l : list value)
| VObj (o : list (string * value)).

Definition obj : Type := list (string * value).

(** [o[k]]: [None] is [undefined]. *)
Fixpoint lookup (k : string) (o : obj) : option value :=
  match o with
  | [] => None
  | (k', v) :: o' => if String.eqb k k' then Some v else lookup k o'
  end.

(** [o[k] = v] (and the spread [{...o, k: v}]): an existing key keeps its
    place, a new key is appended. *)
Fixpoint obj_set (o : obj) (k : string) (v : value) : obj :=
  match o with
  | [] => [(k, v)]
  | (k', v') :: o' =>
      if String.eqb k k' then (k', v) :: o' else (k', v') :: obj_set o' k v
  end.

(** [delete o[k]]. *)
Definition obj_delete (o : obj) (k : string) : obj :=
  filter (fun kv => negb (String.eqb (fst kv) k)) o.

(** [k in o]. *)
Definition obj_has (o : obj) (k : string) : bool :=
  existsb (fun kv => String.eqb (fst kv) k) o.

(** The freshness marker key. *)
Definition HASH : string := "%hash%".

(* ------------------------------------------------------------------ *)
(** ** [String.prototype.split] on a one-character separator, and [join] *)

Fixpoint split_on (sep : ascii) (s : string) : list string :=
  match s with
  | EmptyString => [""]
  | String c s' =>
      let rest := split_on sep s' in
      if Ascii.eqb c sep then "" :: rest
      else match rest with
           | r :: rs => String c r :: rs
           | [] => [String c ""]
           end
  end.

Fixpoint join (sep : string) (l : list string) : string :=
  match l with
  | [] => ""
  | [x] => x
  | x :: xs => x ++ sep ++ join sep xs
  end.

(* ------------------------------------------------------------------ *)
(** ** [translateQuery] *)

(** One field of the query:
<<
      if (value !== null && typeof value === 'object') {
        const keys = Object.keys(value)
        if (keys[0] === '$like') {
          const pattern = value.$like as string
          translated[key] = { $regex: `^${pattern.split('%').join('.*')}$`, $options: 'i' }
          continue
        }
      }
      translated[key] = value
>>
    Arrays are objects whose keys are indices, so [keys[0]] is never
    ['$like'] for them. [pattern.split] raises a TypeError when [pattern] is
    not a string: that is [None]. *)
Definition translate_value (v : value) : option value :=
  match v with
  | VObj o =>
      match o with
      | (k, _) :: _ =>
      if String.eqb k "$like" then
        match lookup "$like" o with
        | Some (VStr pattern) =>
            Some (VObj [("$regex", VStr ("^" ++ join ".*" (split_on "%" pattern) ++ "$"));
                        ("$options", VStr "i")])
        | _ => None
        end
      else Some v
      | [] => Some v
      end
  | _ => Some v
  end.

(** The loop over the query's keys; keys are distinct, so each
    [translated[key] = ...] appends. *)
Fixpoint translateQuery (query : obj) : option obj :=
  match query with
  | [] => Some []
  | (key, v) :: rest =>
      match translate_value v with
      | None => None
      | Some v' =>
          match translateQuery rest with
          | None => None
          | Some t => Some ((key, v') :: t)
          end
      end
  end.

(** The replacement the spec describes, written character by character:
    each ['%'] becomes [".*"], every other character is copied. *)
Fixpoint pct_to_re (p : string) : string :=
  match p with
  | EmptyString => ""
  | String c p' =>
      if Ascii.eqb c "%" then ".*" ++ pct_to_re p' else String c (pct_to_re p')
  end.

(** [$like] patterns are strings in every field of the query whose value is
    an object with first key ['$like']. *)
Definition like_patterns_are_strings (q : obj) : Prop :=
  forall k x rest, In (k, VObj (("$like", x) :: rest)) q -> exists p, x = VStr p.

(* ------------------------------------------------------------------ *)
(** ** Matching semantics used to read the produced filters *)

Definition lower (c : ascii) : ascii :=
  let n := nat_of_ascii c in
  if andb (Nat.leb 65 n) (Nat.leb n 90) then ascii_of_nat (n + 32) else c.

(** The fragment of regular expressions produced from [$like] patterns
    without escapes: ['.'] matches any character, [x*] any number of [x],
    anything else itself; the [i] option compares through [lower]. *)
Inductive atom := AAny | AChar (c : ascii).
Inductive rtok := One (a : atom) | Star (a : atom).

Definition atom_of (c : ascii) : atom :=
  if Ascii.eqb c "." then AAny else AChar c.

Fixpoint parse_re (s : list ascii) : list rtok :=
  match s with
  | [] => []
  | c :: rest =>
      match rest with
      | d :: rest' =>
          if Ascii.eqb d "*" then Star (atom_of c) :: parse_re rest'
          else One (atom_of c) :: parse_re rest
      | [] => [One (atom_of c)]
      end
  end.

Definition atom_matches (a : atom) (c : ascii) : bool :=
  match a with
  | AAny => true
  | AChar d => Ascii.eqb (lower d) (lower c)
  end.

Fixpoint re_match (ts : list rtok) (s : list ascii) : bool :=
  match ts with
  | [] => match s with [] => true | _ => false end
  | One a :: ts' =>
      match s with
      | c :: s' => atom_matches a c && re_match ts' s'
      | [] => false
      end
  | Star a :: ts' =>
      (fix star (s : list ascii) : bool :=
         re_match ts' s ||
         match s with
         | c :: s' => atom_matches a c && star s'
         | [] => false
         end) s
  end.

(** [new RegExp(re, 'i').test(s)] for a regex [^body$] of the fragment. *)
Definition regex_test_i (re : string) (s : string) : option bool :=
  match list_ascii_of_string re with
  | c0 :: rest =>
      if Ascii.eqb c0 "^" && Ascii.eqb (last rest " "%char) "$" && negb (Nat.eqb (List.length rest) 0)
      then Some (re_match (parse_re (removelast rest)) (list_ascii_of_string s))
      else None
  | [] => None
  end.

(** A [$like] pattern read literally: ['%'] matches any sequence, every
    other character matches itself, case-insensitively. *)
Fixpoint like_literal (p : list ascii) (s : list ascii) : bool :=
  match p with
  | [] => match s with [] => true | _ => false end
  | c :: p' =>
      if Ascii.eqb c "%" then
        (fix any (s : list ascii) : bool :=
           like_literal p' s || match s with _ :: s' => any s' | [] => false end) s
      else
        match s with
        | d :: s' => Ascii.eqb (lower c) (lower d) && like_literal p' s'
        | [] => false
        end
  end.

(* ------------------------------------------------------------------ *)
(** ** The store interface used by [MigrateClientImpl] *)

Inductive store_call : Type :=
| CUpdateMany (domain : string) (filter : obj) (update : obj)
| CBulkWrite (domain : string) (items : list (obj * obj))
| CInsertOne (domain : string) (doc : obj)
| CDeleteMany (domain : string) (filter : obj).

Record MigrationResult : Type := { matched : Z; updated : Z }.

(** The collections of the database. *)
Definition store : Type := string -> list obj.

Section MigrateClient.

(** [isOperator] of [@hcengineering/core]: whether an update is an operator
    document. *)
Variable isOperator : obj -> bool.
(** The store's [{matchedCount, modifiedCount}] answers. *)
Variable updateMany_counts : string -> obj -> obj -> Z * Z.
Variable bulkWrite_counts : string -> list (obj * obj) -> Z * Z.
(** Whether a native filter selects a document. *)
Variable matches : obj -> obj -> bool.

(** The update document [update] sends:
<<
      if (isOperator(operations)) {
        if (operations?.$set !== undefined) {
          operations.$set['%hash%'] = null
        } else {
          operations = { ...operations, $set: { '%hash%': null } }
        }
        ... { ...operations }
      } else {
        ... { $set: { ...operations, '%hash%': null } }
      }
>>
    A [$set] that is not an object fails: a property of [null] or of a
    primitive cannot be assigned in strict mode, and the store refuses an
    array. *)
Definition update_document (operations : obj) : option obj :=
  if isOperator operations then
    match lookup "$set" operations with
    | Some (VObj s) => Some (obj_set operations "$set" (VObj (obj_set s HASH VNull)))
    | Some _ => None
    | None => Some (obj_set operations "$set" (VObj [(HASH, VNull)]))
    end
  else Some [("$set", VObj (obj_set operations HASH VNull))].

(** [MigrateClientImpl.update]: the store calls it issues and its result.
    The slow-operation logging does not touch the result and is left out. *)
Definition update (domain : string) (query operations : obj)
  : option (list store_call * MigrationResult) :=
  match update_document operations, translateQuery query with
  | Some u, Some f =>
      let '(m, md) := updateMany_counts domain f u in
      Some ([CUpdateMany domain f u], {| matched := m; updated := md |})
  | _, _ => None
  end.

(** One item of [bulk]:
    [{ updateOne: { filter: translateQuery(it.filter), update: { $set: { ...it.update, '%hash%': null } } } }] *)
Definition bulk_item (it : obj * obj) : option (obj * obj) :=
  match translateQuery (fst it) with
  | Some f => Some (f, [("$set", VObj (obj_set (snd it) HASH VNull))])
  | None => None
  end.

Fixpoint bulk_items (operations : list (obj * obj)) : option (list (obj * obj)) :=
  match operations with
  | [] => Some []
  | it :: rest =>
      match bulk_item it, bulk_items rest with
      | Some x, Some xs => Some (x :: xs)
      | _, _ => None
      end
  end.

(** [MigrateClientImpl.bulk]. *)
Definition bulk (domain : string) (operations : list (obj * obj))
  : option (list store_call * MigrationResult) :=
  match bulk_items operations with
  | Some items =>
      let '(m, md) := bulkWrite_counts domain items in
      Some ([CBulkWrite domain items], {| matched := m; updated := md |})
  | None => None
  end.

(** [if ('%hash%' in doc) { delete doc['%hash%'] }] *)
Definition strip_hash (doc : obj) : obj :=
  if obj_has doc HASH then obj_delete doc HASH else doc.

(** The [while ((doc = await cursor.next()) != null)] loop of [move]. *)
Fixpoint move_stream (targetDomain : string) (cursor : list obj)
         (log : list store_call) (result : MigrationResult)
  : list store_call * MigrationResult :=
  match cursor with
  | [] => (log, result)
  | doc :: rest =>
      move_stream targetDomain rest
        (log ++ [CInsertOne targetDomain (strip_hash doc)])%list
        {| matched := matched result + 1; updated := updated result + 1 |}
  end.

(** [MigrateClientImpl.move]: the cursor yields the source documents the
    filter selects, then one [deleteMany] with the same filter follows. *)
Definition move (st : store) (sourceDomain : string) (query : obj) (targetDomain : string)
  : option (list store_call * MigrationResult) :=
  match translateQuery query with
  | None => None
  | Some q =>
      let '(log, result) :=
        move_stream targetDomain (filter (matches q) (st sourceDomain)) []
          {| matched := 0; updated := 0 |} in
      Some ((log ++ [CDeleteMany sourceDomain q])%list, result)
  end.

(** The effect of the insert and delete calls on the collections. *)
Definition run_call (st : store) (c : store_call) : store :=
  match c with
  | CInsertOne d doc => fun d' => if String.eqb d' d then (st d ++ [doc])%list else st d'
  | CDeleteMany d f =>
      fun d' => if String.eqb d' d then filter (fun x => negb (matches f x)) (st d) else st d'
  | _ => st
  end.

Definition run_calls (st : store) (cs : list store_call) : store :=
  fold_left run_call cs st.

End MigrateClient.

(* ------------------------------------------------------------------ *)
(** ** [traverse] and its iterator *)

(** What the driver's cursor holds: a document, or a position at which a
    read fault happens (when fetching the next batch, raised by [hasNext] and
    [next] alike; or when decoding the buffered document, raised by [next]). *)
Inductive cell : Type :=
| CDoc (d : obj)
| CFetchFault
| CDecodeFault.

Definition cursor : Type := list cell.

(** [cursor.hasNext()]; [None] is a raised fault. *)
Definition hasNext (c : cursor) : option bool :=
  match c with
  | [] => Some false
  | CFetchFault :: _ => None
  | _ => Some true
  end.

(** [cursor.next()]: [null] at exhaustion; [None] is a raised fault. *)
Definition cursor_next (c : cursor) : option (option obj * cursor) :=
  match c with
  | [] => Some (None, [])
  | CDoc d :: c' => Some (Some d, c')
  | _ :: _ => None
  end.

(** A call of [next] either raises or returns [docs] or [null]. *)
Inductive next_outcome : Type :=
| Raises
| Returns (r : option (list obj)) (c : cursor).

(** The loop of [next], with [k] the room left, [size - docs.length]:
<<
        while (docs.length < size && (await cursor.hasNext())) {
          try {
            const d = await cursor.next()
            if (d !== null) { docs.push(d) } else { break }
          } catch (err) { console.error(err); return null }
        }
        return docs
>> *)
Fixpoint pull (k : nat) (c : cursor) : next_outcome :=
  match k with
  | O => Returns (Some []) c
  | S k' =>
      match hasNext c with
      | None => Raises
      | Some false => Returns (Some []) c
      | Some true =>
          match cursor_next c with
          | None => Returns None c
          | Some (None, c') => Returns (Some []) c'
          | Some (Some d, c') =>
              match pull k' c' with
              | Returns (Some ds) c'' => Returns (Some (d :: ds)) c''
              | o => o
              end
          end
      end
  end.

(** [next(size)] for an integer [size]. *)
Definition iterator_next (size : Z) (c : cursor) : next_outcome :=
  pull (Z.to_nat size) c.

(* ------------------------------------------------------------------ *)
(** ** [loadIndexStageStage] *)

(** [deepEqual] of [fast-equals]: arrays element by element, plain objects
    by their key sets and the values under each key, scalars by value. *)
Fixpoint deepEqual (a b : value) : bool :=
  match a, b with
  | VNull, VNull => true
  | VBool x, VBool y => Bool.eqb x y
  | VNum x, VNum y => Z.eqb x y
  | VStr x, VStr y => String.eqb x y
  | VArr xs, VArr ys =>
      (fix go (xs ys : list value) : bool :=
         match xs, ys with
         | [], [] => true
         | x :: xs', y :: ys' => deepEqual x y && go xs' ys'
         | _, _ => false
         end) xs ys
  | VObj xs, VObj ys =>
      Nat.eqb (List.length xs) (List.length ys) &&
      (fix go (xs : list (string * value)) : bool :=
         match xs with
         | [] => true
         | (k, x) :: xs' =>
             match lookup k ys with
             | Some y => deepEqual x y
             | None => false
             end && go xs'
         end) xs
  | _, _ => false
  end.

(** [deepEqual(attributes[field], newValue)]: [undefined] equals no value. *)
Definition deepEqual_attr (stored : option value) (newValue : value) : bool :=
  match stored with
  | Some v => deepEqual v newValue
  | None => false
  end.

Definition string_of_Z (z : Z) : string := NilZero.string_of_int (Z.to_int z).

(** Template-literal conversion [`${v}`]. *)
Fixpoint js_to_string (v : value) : string :=
  match v with
  | VNull => "null"
  | VBool b => if b then "true" else "false"
  | VNum n => string_of_Z n
  | VStr s => s
  | VArr l =>
      String.concat ","
        (map (fun x => match x with VNull => "" | _ => js_to_string x end) l)
  | VObj _ => "[object Object]"
  end.

(** [((attributes.index as number) ?? 0) + 1] *)
Definition index_plus_one (index : option value) : value :=
  match index with
  | None | Some VNull => VNum 1
  | Some (VNum n) => VNum (n + 1)
  | Some (VBool b) => VNum (if b then 2 else 1)
  | Some (VStr s) => VStr (s ++ "1")
  | Some v => VStr (js_to_string v ++ "1")
  end.

Record IndexStageState : Type := {
  ist_id : string;
  ist_stageId : string;
  ist_attributes : obj;
  ist_modifiedOn : Z
}.

(** The value [loadIndexStageStage] returns first: [boolean | string]. *)
Inductive stage_result : Type :=
| RBool (b : bool)
| RStr (s : string).

(** The transactions it sends through [storage.tx]. *)
Inductive stage_tx : Type :=
| TxCreateDoc (id stageId : string) (attributes : obj) (now : Z)
| TxUpdateDoc (id stageId : string) (attributes : obj) (now : Z).

(** [storage.findAll(ctx, core.class.IndexStageState, { stageId })] *)
Definition findAll (db : list IndexStageState) (stageId : string) : list IndexStageState :=
  filter (fun r => String.eqb (ist_stageId r) stageId) db.

(** The state the function works from: the cached one, else the first
    record found. *)
Definition current_state (db : list IndexStageState) (state : option IndexStageState)
    (stageId : string) : option IndexStageState :=
  match state with
  | Some s => Some s
  | None => head (findAll db stageId)
  end.

(** [loadIndexStageStage]; [freshId] is what [generateId()] returns and
    [now] what [Date.now()] returns. *)
Definition loadIndexStageStage (db : list IndexStageState) (state : option IndexStageState)
    (stageId field : string) (newValue : value) (freshId : string) (now : Z)
  : stage_result * option IndexStageState * list stage_tx :=
  let state := current_state db state stageId in
  let attributes := match state with Some s => ist_attributes s | None => [] end in
  let result := match lookup "index" attributes with
                | Some i => RStr (js_to_string i)
                | None => RBool true
                end in
  if deepEqual_attr (lookup field attributes) newValue then (result, state, [])
  else
    let newIndex := index_plus_one (lookup "index" attributes) in
    (* { [field]: newValue, index: newIndex } *)
    let data := obj_set [(field, newValue)] "index" newIndex in
    match state with
    | None =>
        (RStr (js_to_string newIndex),
         Some {| ist_id := freshId; ist_stageId := stageId;
                 ist_attributes := data; ist_modifiedOn := now |},
         [TxCreateDoc freshId stageId data now])
    | Some s =>
        (RStr (js_to_string newIndex),
         Some {| ist_id := ist_id s; ist_stageId := stageId;
                 ist_attributes := data; ist_modifiedOn := now |},
         [TxUpdateDoc (ist_id s) stageId data now])
    end.

(** Modelled from the spec: the effect of [storage.tx] (the [DbAdapter] is
    not part of these sources), "persist — create the record if absent, else
    update it": a create adds the record, an update sets [stageId] and
    [attributes] of the record with that id. *)
Definition apply_stage_tx (db : list IndexStageState) (tx : stage_tx) : list IndexStageState :=
  match tx with
  | TxCreateDoc id sid attrs now =>
      (db ++ [{| ist_id := id; ist_stageId := sid; ist_attributes := attrs;
                 ist_modifiedOn := now |}])%list
  | TxUpdateDoc id sid attrs now =>
      map (fun r => if String.eqb (ist_id r) id
                    then {| ist_id := ist_id r; ist_stageId := sid;
                            ist_attributes := attrs; ist_modifiedOn := now |}
                    else r) db
  end.

Definition apply_stage_txs (db : list IndexStageState) (txs : list stage_tx)
  : list IndexStageState :=
  fold_left apply_stage_tx txs db.

(** The index stored for [stageId]: that of the record a lookup finds. *)
Definition stored_index (db : list IndexStageState) (stageId : string) : option value :=
  match head (findAll db stageId) with
  | Some r => lookup "index" (ist_attributes r)
  | None => None
  end.

(** A call, and a sequence of calls each passing the state the previous one
    returned. *)
Definition stage_call (db : list IndexStageState) (state : option IndexStageState)
    (stageId field : string) (newValue : value) (freshId : string) (now : Z)
  : list IndexStageState * option IndexStageState * stage_result :=
  let '(res, st', txs) := loadIndexStageStage db state stageId field newValue freshId now in
  (apply_stage_txs db txs, st', res).

Fixpoint stage_run (db : list IndexStageState) (state : option IndexStageState)
    (stageId : string) (calls : list (string * value * string * Z))
  : list IndexStageState * option IndexStageState :=
  match calls with
  | [] => (db, state)
  | (field, v, id, now) :: rest =>
      let '(db', st', _) := stage_call db state stageId field v id now in
      stage_run db' st' stageId rest
  end.

(** The stored index is a number or absent (the spec's [index: int]). *)
Definition index_is_num (i : option value) : Prop :=
  match i with
  | None | Some (VNum _) => True
  | _ => False
  end.

(** The order "never decreases" refers to. *)
Definition index_le (a b : option value) : Prop :=
  match a, b with
  | None, _ => True
  | Some (VNum x), Some (VNum y) => (x <= y)%Z
  | _, _ => False
  end.

(** A cached state agrees with the store: it is the record a lookup would
    find (same id, same attributes). *)
Definition cache_coherent (db : list IndexStageState) (stageId : string)
    (state : option IndexStageState) : Prop :=
  match state with
  | None => True
  | Some r =>
      exists r', head (findAll db stageId) = Some r' /\
                 ist_id r' = ist_id r /\ ist_attributes r' = ist_attributes r
  end.

(* ------------------------------------------------------------------ *)
(** ** [traverseFullTextContexts] *)

Section FullText.

(** The hierarchy, as [Hierarchy] and [getFullTextContext] of
    [@hcengineering/core] provide it. *)
Variable context : Type.
Variable getDescendants : string -> list string.
Variable getAncestors : string -> list string.
Variable isMixin : string -> bool.
Variable getFullTextContext : string -> option context.

(** [Set.prototype.add]: insertion order, no duplicates. *)
Definition set_add (s : list string) (x : string) : list string :=
  if existsb (String.eqb x) s then s else (s ++ [x])%list.

Definition set_of (l : list string) : list string := fold_left set_add l [].

Definition visit (visits : list context) (c : string) : list context :=
  match getFullTextContext c with
  | Some ctx => (visits ++ [ctx])%list
  | None => visits
  end.

(** The body of [for (const a of getAncestors(objectClass))]. *)
Definition ancestor_step (acc : list context * list string) (a : string)
  : list context * list string :=
  let '(visits, desc) := acc in
  (visit visits a,
   fold_left (fun desc dd => if isMixin dd then set_add desc dd else desc)
     (getDescendants a) desc).

(** [traverseFullTextContexts]: the contexts passed to [op], in order, and
    the returned array (its [propagate] set is never filled). *)
Definition traverseFullTextContexts (objectClass : string) : list context * list string :=
  let desc := set_of (getDescendants objectClass) in
  let visits := visit [] objectClass in
  let '(visits, desc) := fold_left ancestor_step (getAncestors objectClass) (visits, desc) in
  let visits := fold_left (fun vs d => if isMixin d then visit vs d else vs) desc visits in
  (visits, []).

End FullText.

(* ------------------------------------------------------------------ *)
(** ** [MigrateClientImpl.deleteMany] *)

(** [deleteMany(query as any)]: the query is sent as it is, untranslated. *)
Definition deleteMany (domain : string) (query : obj) : list store_call :=
  [CDeleteMany domain query].

(* ------------------------------------------------------------------ *)
(** ** Well-formed values *)

(** Keys of an object are distinct. *)
Fixpoint keys_distinct (l : list string) : bool :=
  match l with
  | [] => true
  | k :: l' => negb (existsb (String.eqb k) l') && keys_distinct l'
  end.



(* ------------------------------------------------------------------ *)
(** ** [getContent] *)

Record AnyAttribute : Type := { attr_name : string; attr_attributeOf : string }.

(** [x?.[k]] for a property name of the model: [undefined] and [null]
    short-circuit, an object gives its own property. Attribute names are
    never array indices, ['length'] or names of prototype members, so a
    read on any other value gives [undefined]. *)
Definition js_get (x : option value) (k : string) : option value :=
  match x with
  | Some (VObj o) => lookup k o
  | _ => None
  end.

(** [x?.toString() ?? ''] *)
Definition content_string (x : option value) : string :=
  match x with
  | None | Some VNull => ""
  | Some v => js_to_string v
  end.

(** [o[k] = v] on an object of any value type. *)
Fixpoint aset {A : Type} (o : list (string * A)) (k : string) (v : A) : list (string * A) :=
  match o with
  | [] => [(k, v)]
  | (k', v') :: o' => if String.eqb k k' then (k', v) :: o' else (k', v') :: aset o' k v
  end.

Fixpoint alookup {A : Type} (k : string) (o : list (string * A)) : option A :=
  match o with
  | [] => None
  | (k', v) :: o' => if String.eqb k k' then Some v else alookup k o'
  end.

Section GetContent.

Variable isMixin : string -> bool.

(** The key and the value [getContent] records for one attribute. *)
Definition attr_key (attr : AnyAttribute) : string :=
  if isMixin (attr_attributeOf attr)
  then attr_attributeOf attr ++ "." ++ attr_name attr
  else attr_name attr.

(** The reads are of own properties, as for [js_get]. *)
Definition attr_content (doc : obj) (attr : AnyAttribute) : string :=
  if isMixin (attr_attributeOf attr)
  then content_string (js_get (lookup (attr_attributeOf attr) doc) (attr_name attr))
  else content_string (lookup (attr_name attr) doc).

(** [getContent]: the loop over [attributes]. *)
Definition getContent (attributes : list AnyAttribute) (doc : obj)
  : list (string * (string * AnyAttribute)) :=
  fold_left (fun attrs attr => aset attrs (attr_key attr) (attr_content doc attr, attr))
    attributes [].

(** The last attribute of the list whose key is [k]. *)
Fixpoint last_with_key (k : string) (attributes : list AnyAttribute) : option AnyAttribute :=
  match attributes with
  | [] => None
  | a :: rest =>
      match last_with_key k rest with
      | Some b => Some b
      | None => if String.eqb (attr_key a) k then Some a else None
      end
  end.

End GetContent.

(* ------------------------------------------------------------------ *)
(** ** [createStateDoc] *)

(** [{ ...base, ...data }]: each own key of [data], in order, is assigned. *)
Definition spread (base data : obj) : obj :=
  fold_left (fun o kv => obj_set o (fst kv) (snd kv)) data base.

Section CreateStateDoc.

(** [core.class.DocIndexState], [plugin.space.DocIndexState] and
    [core.account.System]. *)
Variable DocIndexStateClass DocIndexStateSpace SystemAccount : string.

Definition createStateDoc_base (id objectClass : string) (data : obj) (now : Z) : obj :=
  [("_class", VStr DocIndexStateClass);
   ("_id", VStr id);
   ("space", match lookup "space" data with
             | None | Some VNull => VStr DocIndexStateSpace
             | Some sp => sp
             end);
   ("objectClass", VStr objectClass);
   ("modifiedBy", VStr SystemAccount);
   ("modifiedOn", VNum now)].

(** [createStateDoc]; [now] is what [Date.now()] returns. *)
Definition createStateDoc (id objectClass : string) (data : obj) (now : Z) : obj :=
  spread (createStateDoc_base id objectClass data now) data.

End CreateStateDoc.

(* ------------------------------------------------------------------ *)
(** ** [collectPropagate] and [collectPropagateClasses] *)

Record FullTextSearchContext : Type := {
  ftc_propagate : option (list string);
  ftc_propagateClasses : option (list string)
}.

(** [traverseFullTextContexts(pipeline, objectClass, (fts) =>
      fts?.<field>?.forEach((it) => propagate.add(it)))] followed by
    [Array.from(propagate.values())]. *)
Definition collect_into (field : FullTextSearchContext -> option (list string))
    (visits : list FullTextSearchContext) : list string :=
  fold_left (fun s fts => match field fts with
                          | Some l => fold_left set_add l s
                          | None => s
                          end) visits [].

Section Collect.

Variable getDescendants : string -> list string.
Variable getAncestors : string -> list string.
Variable isMixin : string -> bool.
Variable getFullTextContext : string -> option FullTextSearchContext.

Definition collectPropagate (objectClass : string) : list string :=
  collect_into ftc_propagate
    (fst (traverseFullTextContexts FullTextSearchContext getDescendants getAncestors isMixin
            getFullTextContext objectClass)).

Definition collectPropagateClasses (objectClass : string) : list string :=
  collect_into ftc_propagateClasses
    (fst (traverseFullTextContexts FullTextSearchContext getDescendants getAncestors isMixin
            getFullTextContext objectClass)).

End Collect.

(* ------------------------------------------------------------------ *)
(** ** The account service's RPC route (pods/account) *)

(** [extractToken]: [header.authorization?.slice(7) ?? undefined]. *)
Definition extractToken (authorization : option string) : option string :=
  match authorization with
  | None => None
  | Some h => Some (substring 7 (String.length h - 7) h)
  end.

Record rpc_request : Type := { rpc_id : value; rpc_method : string }.

(** The names [methods[name]] finds on [Object.prototype] when [methods]
    has no own property of that name. *)
Definition object_prototype_members : list string :=
  ["constructor"; "__defineGetter__"; "__defineSetter__"; "hasOwnProperty";
   "__lookupGetter__"; "__lookupSetter__"; "isPrototypeOf"; "propertyIsEnumerable";
   "toString"; "valueOf"; "__proto__"; "toLocaleString"].

Section Rpc.

Variable Response : Type.

(** How the handler ends, with the [ctx.body] it has set before raising. *)
Inductive rpc_outcome : Type :=
| RpcResponds (r : Response)
| RpcRaises (body : option (value * string))
| RpcPrototypeMember (name : string).

(** The [router.post('rpc', '/', ...)] handler; [methods] lists the own
    properties of the [methods] record and [connected] whether the awaited
    MongoClient connection resolves. The unknown-method body is
    [{ id: request.id, error: UnknownMethod { method } }]. *)
Definition rpc_handle (methods : list (string * (rpc_request -> option string -> Response)))
    (connected : bool) (authorization : option string) (request : rpc_request) : rpc_outcome :=
  let token := extractToken authorization in
  match alookup (rpc_method request) methods with
  | Some method =>
      if connected then RpcResponds (method request token) else RpcRaises None
  | None =>
      if existsb (String.eqb (rpc_method request)) object_prototype_members
      then (if connected then RpcPrototypeMember (rpc_method request) else RpcRaises None)
      else
        (* ctx.body is set, then [method(...)] is called on [undefined] *)
        RpcRaises (Some (rpc_id request, rpc_method request))
  end.

End Rpc.

(* ------------------------------------------------------------------ *)
(** ** Inputs of the examples and witnesses *)

(** A [$set] an operator document carries is an object. *)
Definition set_is_object (isOperator : obj -> bool) (operations : obj) : Prop :=
  isOperator operations = false \/
  forall x, lookup "$set" operations = Some x -> exists s, x = VObj s.

(** [isOperator] of [@hcengineering/core], for the examples. *)
Definition isOperator_example (o : obj) : bool :=
  match o with
  | [] => false
  | _ => forallb (fun kv => String.prefix "$" (fst kv)) o
  end.

(** Store answers for the examples. *)
Definition counts_example (_ : string) (_ _ : obj) : Z * Z := (3, 3)%Z.

Definition bulk_counts_example (_ : string) (items : list (obj * obj)) : Z * Z :=
  (Z.of_nat (List.length items), Z.of_nat (List.length items)).

(** Equality filters, read as the store reads them. *)
Definition matches_example (f d : obj) : bool :=
  forallb (fun kv => match lookup (fst kv) d with
                     | Some v => deepEqual v (snd kv)
                     | None => false
                     end) f.

(** A [tasks] collection with one document carrying a marker. *)
Definition store_example : store :=
  fun d => if String.eqb d "tasks"
           then [[("_id", VStr "t1"); ("status", VStr "old"); (HASH, VStr "h1")];
                 [("_id", VStr "t2"); ("status", VStr "new")]]
           else [].

(** A class [Issue] extending [Doc], with a mixin under each. *)
Definition ex_descendants (c : string) : list string :=
  if String.eqb c "Issue" then ["Issue"; "IssueMixin"]
  else if String.eqb c "Doc" then ["Doc"; "Issue"; "IssueMixin"; "DocMixin"]
  else [c].
Definition ex_ancestors (c : string) : list string :=
  if String.eqb c "Issue" then ["Doc"] else [].
Definition ex_isMixin (c : string) : bool :=
  String.eqb c "IssueMixin" || String.eqb c "DocMixin".
Definition ex_context (c : string) : option string :=
  if String.eqb c "Issue" || String.eqb c "DocMixin" || String.eqb c "IssueMixin"
  then Some c else None.

(** The first state the spec example's run returns. *)
Definition stage1_first_state : IndexStageState :=
  {| ist_id := "a"; ist_stageId := "stage-1";
     ist_attributes := [("version", VNum 5); ("index", VNum 1)]; ist_modifiedOn := 0 |}.

(* ================================================================== *)
(** * Theorems *)

(* ------------------------------------------------------------------ *)
(** ** [translateQuery] *)

Example translateQuery_ex :
  translateQuery [("title", VObj [("$like", VStr "ab%c")]); ("status", VStr "open")]
  = Some [("title", VObj [("$regex", VStr "^ab.*c$"); ("$options", VStr "i")]);
          ("status", VStr "open")].
Proof. reflexivity. Qed.

Lemma split_on_not_nil : forall sep s, split_on sep s <> [].
Proof.
  intros sep s; destruct s as [|c s']; simpl; [discriminate|].
  destruct (Ascii.eqb c sep); [discriminate|].
  destruct (split_on sep s'); discriminate.
Qed.

Lemma join_cons_cons : forall sep x y ys,
  join sep (x :: y :: ys) = x ++ sep ++ join sep (y :: ys).
Proof. reflexivity. Qed.

Lemma join_String : forall sep c r rs,
  join sep (String c r :: rs) = String c (join sep (r :: rs)).
Proof. intros sep c r [|y ys]; reflexivity. Qed.

(** [pattern.split('%').join('.*')] replaces each ['%'] by [".*"]. *)
Lemma join_split_pct : forall p, join ".*" (split_on "%" p) = pct_to_re p.
Proof.
  induction p as [|c p IH]; [reflexivity|].
  simpl. destruct (Ascii.eqb c "%").
  - destruct (split_on "%" p) as [|r rs] eqn:E.
    + exfalso; exact (split_on_not_nil _ _ E).
    + rewrite join_cons_cons, <- IH. reflexivity.
  - destruct (split_on "%" p) as [|r rs] eqn:E.
    + exfalso; exact (split_on_not_nil _ _ E).
    + rewrite join_String, IH. reflexivity.
Qed.

Lemma translate_value_like : forall p rest,
  translate_value (VObj (("$like", VStr p) :: rest))
  = Some (VObj [("$regex", VStr ("^" ++ pct_to_re p ++ "$")); ("$options", VStr "i")]).
Proof. intros p rest; simpl. rewrite join_split_pct. reflexivity. Qed.

Lemma translate_value_other : forall v,
  (forall x rest, v <> VObj (("$like", x) :: rest)) -> translate_value v = Some v.
Proof.
  intros v Hv. destruct v as [| | | | |o]; try reflexivity.
  destruct o as [|[k x] rest]; [reflexivity|]. simpl.
  destruct (String.eqb k "$like") eqn:Ek; [|reflexivity].
  apply String.eqb_eq in Ek; subst. exfalso; exact (Hv x rest eq_refl).
Qed.

Lemma translate_value_like_shape : forall v v',
  translate_value v = Some v' ->
  (exists p rest, v = VObj (("$like", VStr p) :: rest) /\
     v' = VObj [("$regex", VStr ("^" ++ pct_to_re p ++ "$")); ("$options", VStr "i")])
  \/ ((forall x rest, v <> VObj (("$like", x) :: rest)) /\ v' = v).
Proof.
  intros v v' H.
  destruct v as [| | | | |o]; try (simpl in H; right; split; [intros ? ? E; discriminate E | congruence]).
  destruct o as [|[k x] rest].
  - right; split; [intros ? ? E; discriminate E | simpl in H; congruence].
  - destruct (String.eqb k "$like") eqn:Ek.
    + apply String.eqb_eq in Ek; subst k.
      destruct x as [| | |p| |]; simpl in H; try discriminate H.
      left. exists p, rest. split; [reflexivity|].
      injection H as <-. rewrite join_split_pct. reflexivity.
    + right. split.
      * intros x' rest' E. injection E as E1 _. subst k. discriminate Ek.
      * simpl in H. rewrite Ek in H. congruence.
Qed.

Lemma translateQuery_fields : forall q t,
  translateQuery q = Some t ->
  Forall2 (fun kv kv' => fst kv' = fst kv /\ translate_value (snd kv) = Some (snd kv')) q t.
Proof.
  induction q as [|[k v] q IH]; intros t H; simpl in H.
  - injection H as <-. constructor.
  - destruct (translate_value v) as [v'|] eqn:Ev; [|discriminate].
    destruct (translateQuery q) as [t'|] eqn:Eq; [|discriminate].
    injection H as <-. constructor; [split; auto | apply IH; reflexivity].
Qed.

Lemma translateQuery_defined : forall q,
  like_patterns_are_strings q -> exists t, translateQuery q = Some t.
Proof.
  induction q as [|[k v] q IH]; intros H.
  - exists []; reflexivity.
  - assert (Hv : exists v', translate_value v = Some v').
    { destruct (translate_value v) as [v'|] eqn:Ev; [eauto|].
      destruct v as [| | | | |o]; try discriminate Ev.
      destruct o as [|[k' x] rest]; [discriminate Ev|].
      simpl in Ev. destruct (String.eqb k' "$like") eqn:Ek; [|discriminate Ev].
      apply String.eqb_eq in Ek; subst k'.
      destruct (H k x rest (or_introl eq_refl)) as [p ->]. discriminate Ev. }
    destruct Hv as [v' Hv].
    destruct IH as [t Ht].
    { intros k' x rest Hin. exact (H k' x rest (or_intror Hin)). }
    exists ((k, v') :: t). simpl. rewrite Hv, Ht. reflexivity.
Qed.

(** C4 (amended): a field whose value is an object whose first key is
    ['$like'] becomes [{$regex: '^' + pattern with each '%' replaced by '.*'
    + '$', $options: 'i'}], whatever other keys that object has (they are
    dropped); every other field value is passed through unchanged; and the
    translation does not fail when those [$like] patterns are strings. *)
Theorem translateQuery_translation : forall q,
  like_patterns_are_strings q ->
  exists t, translateQuery q = Some t /\
  Forall2 (fun kv kv' => fst kv' = fst kv /\
     ((exists p rest, snd kv = VObj (("$like", VStr p) :: rest) /\
        snd kv' = VObj [("$regex", VStr ("^" ++ pct_to_re p ++ "$")); ("$options", VStr "i")])
      \/ ((forall x rest, snd kv <> VObj (("$like", x) :: rest)) /\ snd kv' = snd kv))) q t.
Proof.
  intros q Hq. destruct (translateQuery_defined q Hq) as [t Ht].
  exists t. split; [exact Ht|].
  eapply Forall2_impl; [|exact (translateQuery_fields q t Ht)].
  intros kv kv' [Hk Hv]. split; [exact Hk|]. exact (translate_value_like_shape _ _ Hv).
Qed.

Lemma translateQuery_translation_witness :
  like_patterns_are_strings [("title", VObj [("$like", VStr "ab%c")]); ("status", VStr "open")] /\
  exists t, translateQuery [("title", VObj [("$like", VStr "ab%c")]); ("status", VStr "open")] = Some t /\
  Forall2 (fun kv kv' => fst kv' = fst kv /\
     ((exists p rest, snd kv = VObj (("$like", VStr p) :: rest) /\
        snd kv' = VObj [("$regex", VStr ("^" ++ pct_to_re p ++ "$")); ("$options", VStr "i")])
      \/ ((forall x rest, snd kv <> VObj (("$like", x) :: rest)) /\ snd kv' = snd kv)))
    [("title", VObj [("$like", VStr "ab%c")]); ("status", VStr "open")] t.
Proof.
  assert (H : like_patterns_are_strings
                [("title", VObj [("$like", VStr "ab%c")]); ("status", VStr "open")]).
  { intros k x rest [E|[E|[]]]; injection E; intros; subst; eauto; discriminate. }
  split; [exact H | apply (translateQuery_translation _ H)].
Defined.

(** C4, as stated, fails: the object [{$like: 'a%', $ne: 'ab'}] is another
    operator object, and it is not passed through: it becomes the regex of
    its [$like] pattern and its [$ne] condition is dropped. *)
Lemma translateQuery_drops_other_operators :
  translateQuery [("title", VObj [("$like", VStr "a%"); ("$ne", VStr "ab")])]
  = Some [("title", VObj [("$regex", VStr "^a.*$"); ("$options", VStr "i")])] /\
  translateQuery [("title", VObj [("$like", VStr "a%"); ("$ne", VStr "ab")])]
  <> Some [("title", VObj [("$like", VStr "a%"); ("$ne", VStr "ab")])].
Proof. split; [reflexivity | discriminate]. Qed.

(** C9: the characters of a [$like] pattern other than ['%'] are copied into
    the regular expression unescaped: [{$like: 'a.c'}] becomes [^a.c$], which
    matches ['axc'], a string the pattern read literally does not match. *)
Theorem translateQuery_like_metachar :
  (forall p, translate_value (VObj [("$like", VStr p)])
             = Some (VObj [("$regex", VStr ("^" ++ pct_to_re p ++ "$")); ("$options", VStr "i")])) /\
  translateQuery [("name", VObj [("$like", VStr "a.c")])]
  = Some [("name", VObj [("$regex", VStr "^a.c$"); ("$options", VStr "i")])] /\
  regex_test_i "^a.c$" "axc" = Some true /\
  like_literal (list_ascii_of_string "a.c") (list_ascii_of_string "axc") = false.
Proof.
  split; [intros p; apply translate_value_like|].
  split; [reflexivity|]. split; reflexivity.
Qed.

(** C10: the [$like] translation is applied to a field only when its value
    is an object whose first key is ['$like']; every other value, including
    an object holding ['$like'] at another position, is passed through. *)
Theorem translateQuery_like_first_key_only : forall q t,
  translateQuery q = Some t ->
  Forall2 (fun kv kv' => fst kv' = fst kv /\
     ((forall x rest, snd kv <> VObj (("$like", x) :: rest)) -> snd kv' = snd kv)) q t.
Proof.
  intros q t Ht.
  eapply Forall2_impl; [|exact (translateQuery_fields q t Ht)].
  intros kv kv' [Hk Hv]. split; [exact Hk|].
  intros Hn. rewrite (translate_value_other _ Hn) in Hv. congruence.
Qed.

Lemma translateQuery_like_first_key_only_witness :
  translateQuery [("name", VObj [("$ne", VStr "x"); ("$like", VStr "a%")])]
  = Some [("name", VObj [("$ne", VStr "x"); ("$like", VStr "a%")])] /\
  Forall2 (fun kv kv' => fst kv' = fst kv /\
     ((forall x rest, snd kv <> VObj (("$like", x) :: rest)) -> snd kv' = snd kv))
    [("name", VObj [("$ne", VStr "x"); ("$like", VStr "a%")])]
    [("name", VObj [("$ne", VStr "x"); ("$like", VStr "a%")])].
Proof.
  split; [reflexivity|].
  apply translateQuery_like_first_key_only. reflexivity.
Defined.

(* ------------------------------------------------------------------ *)
(** ** Objects *)

Lemma lookup_obj_set_same : forall o k v, lookup k (obj_set o k v) = Some v.
Proof.
  induction o as [|[k' v'] o IH]; intros k v; simpl.
  - rewrite String.eqb_refl. reflexivity.
  - destruct (String.eqb k k') eqn:E; simpl.
    + rewrite E. reflexivity.
    + rewrite E. apply IH.
Qed.

Lemma lookup_obj_set_other : forall o k k' v,
  k' <> k -> lookup k' (obj_set o k v) = lookup k' o.
Proof.
  induction o as [|[k0 v0] o IH]; intros k k' v Hne; simpl.
  - destruct (String.eqb k' k) eqn:E; [apply String.eqb_eq in E; congruence | reflexivity].
  - destruct (String.eqb k k0) eqn:E; simpl.
    + apply String.eqb_eq in E; subst k0.
      destruct (String.eqb k' k) eqn:E'; [apply String.eqb_eq in E'; congruence | reflexivity].
    + destruct (String.eqb k' k0); [reflexivity | apply IH; exact Hne].
Qed.

Lemma lookup_obj_delete : forall o k, lookup k (obj_delete o k) = None.
Proof.
  induction o as [|[k' v'] o IH]; intros k; [reflexivity|]. unfold obj_delete in *. simpl.
  destruct (String.eqb k' k) eqn:E; simpl.
  - apply IH.
  - rewrite String.eqb_sym, E. apply IH.
Qed.

Lemma lookup_not_has : forall o k, obj_has o k = false -> lookup k o = None.
Proof.
  induction o as [|[k' v'] o IH]; intros k H; [reflexivity|].
  unfold obj_has in H. simpl in H. apply orb_false_iff in H as [H1 H2].
  simpl. rewrite String.eqb_sym, H1. apply IH. exact H2.
Qed.

Lemma lookup_strip_hash : forall d, lookup HASH (strip_hash d) = None.
Proof.
  intros d. unfold strip_hash. destruct (obj_has d HASH) eqn:E.
  - apply lookup_obj_delete.
  - apply lookup_not_has. exact E.
Qed.

(* ------------------------------------------------------------------ *)
(** ** [update] *)

(** C1: [update] sends one [updateMany] with the translated filter and
    returns the store's matched/modified counts. For an operator document,
    the update is the document itself with ['%hash%': null] added to its
    [$set] (a [$set] holding only the marker when there was none), its other
    operators unchanged; for a plain map, it is [{$set: {...map, '%hash%': null}}]. *)
Theorem update_clears_marker :
  forall isOperator updateMany_counts domain query operations f,
  translateQuery query = Some f ->
  set_is_object isOperator operations ->
  exists u,
    update isOperator updateMany_counts domain query operations
    = Some ([CUpdateMany domain f u],
            {| matched := fst (updateMany_counts domain f u);
               updated := snd (updateMany_counts domain f u) |}) /\
    if isOperator operations then
      (exists s', lookup "$set" u = Some (VObj s') /\
         lookup HASH s' = Some VNull /\
         forall k, k <> HASH ->
           lookup k s' = match lookup "$set" operations with
                         | Some (VObj s) => lookup k s
                         | _ => None
                         end) /\
      (forall k, k <> "$set" -> lookup k u = lookup k operations)
    else
      exists s', u = [("$set", VObj s')] /\
        lookup HASH s' = Some VNull /\
        forall k, k <> HASH -> lookup k s' = lookup k operations.
Proof.
  intros isOperator cnt domain query operations f Hf Hset.
  unfold update, update_document.
  destruct (isOperator operations) eqn:Eop.
  - destruct Hset as [Hset|Hset]; [congruence|].
    destruct (lookup "$set" operations) as [x|] eqn:Es.
    + destruct (Hset x eq_refl) as [s ->].
      exists (obj_set operations "$set" (VObj (obj_set s HASH VNull))).
      rewrite Hf. destruct (cnt domain f _) as [m md]. split; [reflexivity|].
      split.
      * exists (obj_set s HASH VNull). rewrite lookup_obj_set_same.
        split; [reflexivity|]. split; [apply lookup_obj_set_same|].
        intros k Hk. apply lookup_obj_set_other. exact Hk.
      * intros k Hk. apply lookup_obj_set_other. exact Hk.
    + exists (obj_set operations "$set" (VObj [(HASH, VNull)])).
      rewrite Hf. destruct (cnt domain f _) as [m md]. split; [reflexivity|].
      split.
      * exists [(HASH, VNull)]. rewrite lookup_obj_set_same.
        split; [reflexivity|]. split; [reflexivity|].
        intros k Hk. simpl. destruct (String.eqb k HASH) eqn:E;
          [apply String.eqb_eq in E; congruence | reflexivity].
      * intros k Hk. apply lookup_obj_set_other. exact Hk.
  - exists [("$set", VObj (obj_set operations HASH VNull))].
    rewrite Hf. destruct (cnt domain f _) as [m md]. split; [reflexivity|].
    exists (obj_set operations HASH VNull). split; [reflexivity|].
    split; [apply lookup_obj_set_same|].
    intros k Hk. apply lookup_obj_set_other. exact Hk.
Qed.

Lemma update_clears_marker_witness :
  exists u,
    update isOperator_example counts_example "tasks" [("status", VStr "open")]
      [("status", VStr "closed")]
    = Some ([CUpdateMany "tasks" [("status", VStr "open")] u],
            {| matched := fst (counts_example "tasks" [("status", VStr "open")] u);
               updated := snd (counts_example "tasks" [("status", VStr "open")] u) |}) /\
    if isOperator_example [("status", VStr "closed")] then
      (exists s', lookup "$set" u = Some (VObj s') /\
         lookup HASH s' = Some VNull /\
         forall k, k <> HASH ->
           lookup k s' = match lookup "$set" [("status", VStr "closed")] with
                         | Some (VObj s) => lookup k s
                         | _ => None
                         end) /\
      (forall k, k <> "$set" -> lookup k u = lookup k [("status", VStr "closed")])
    else
      exists s', u = [("$set", VObj s')] /\
        lookup HASH s' = Some VNull /\
        forall k, k <> HASH -> lookup k s' = lookup k [("status", VStr "closed")].
Proof.
  apply update_clears_marker.
  - reflexivity.
  - left. reflexivity.
Defined.

(* ------------------------------------------------------------------ *)
(** ** [bulk] *)

Lemma bulk_items_spec : forall ops fs,
  Forall2 (fun it f => translateQuery (fst it) = Some f) ops fs ->
  bulk_items ops
  = Some (map (fun p => (snd p, [("$set", VObj (obj_set (snd (fst p)) HASH VNull))]))
              (combine ops fs)).
Proof.
  intros ops fs H. induction H as [|it f ops fs Hf _ IH]; [reflexivity|].
  simpl. unfold bulk_item. rewrite Hf, IH. reflexivity.
Qed.

(** C6: [bulk] sends a single [bulkWrite] in which every item's update,
    an operator document included, is spread into one [$set] with
    ['%hash%': null]; the result is the counts of that one batched write.
    The statement does not depend on [isOperator]: [bulk] never asks. *)
Theorem bulk_plain_set_only : forall bulkWrite_counts domain ops fs,
  Forall2 (fun it f => translateQuery (fst it) = Some f) ops fs ->
  let items := map (fun p => (snd p, [("$set", VObj (obj_set (snd (fst p)) HASH VNull))]))
                   (combine ops fs) in
  bulk bulkWrite_counts domain ops
  = Some ([CBulkWrite domain items],
          {| matched := fst (bulkWrite_counts domain items);
             updated := snd (bulkWrite_counts domain items) |}) /\
  Forall2 (fun it item =>
     exists s', snd item = [("$set", VObj s')] /\ lookup HASH s' = Some VNull /\
       forall k, k <> HASH -> lookup k s' = lookup k (snd it)) ops items.
Proof.
  intros cnt domain ops fs H items.
  split.
  - unfold bulk. rewrite (bulk_items_spec ops fs H). fold items.
    destruct (cnt domain items); reflexivity.
  - subst items. clear cnt domain.
    induction H as [|it f ops fs Hf _ IH]; simpl; constructor; [|exact IH].
    exists (obj_set (snd it) HASH VNull). split; [reflexivity|].
    split; [apply lookup_obj_set_same|].
    intros k Hk. apply lookup_obj_set_other. exact Hk.
Qed.

Lemma bulk_plain_set_only_witness :
  let ops := [([("_id", VStr "t1")], [("$set", VObj [("a", VNum 1)])])] in
  let fs := [[("_id", VStr "t1")]] in
  let items := map (fun p => (snd p, [("$set", VObj (obj_set (snd (fst p)) HASH VNull))]))
                   (combine ops fs) in
  bulk bulk_counts_example "tasks" ops
  = Some ([CBulkWrite "tasks" items],
          {| matched := fst (bulk_counts_example "tasks" items);
             updated := snd (bulk_counts_example "tasks" items) |}) /\
  Forall2 (fun it item =>
     exists s', snd item = [("$set", VObj s')] /\ lookup HASH s' = Some VNull /\
       forall k, k <> HASH -> lookup k s' = lookup k (snd it)) ops items.
Proof.
  apply bulk_plain_set_only. repeat constructor.
Defined.

(* ------------------------------------------------------------------ *)
(** ** [move] *)

Lemma move_stream_spec : forall tgt cur log res,
  move_stream tgt cur log res
  = ((log ++ map (fun d => CInsertOne tgt (strip_hash d)) cur)%list,
     {| matched := matched res + Z.of_nat (List.length cur);
        updated := updated res + Z.of_nat (List.length cur) |}).
Proof.
  intros tgt cur. induction cur as [|d cur IH]; intros log res; simpl.
  - rewrite app_nil_r. destruct res; simpl. f_equal. f_equal; lia.
  - rewrite IH. simpl. rewrite <- app_assoc. simpl. f_equal. f_equal; lia.
Qed.

Lemma run_inserts : forall matches l st tgt d,
  run_calls matches st (map (CInsertOne tgt) l) d
  = if String.eqb d tgt then (st tgt ++ l)%list else st d.
Proof.
  intros matches l. induction l as [|x l IH]; intros st tgt d; simpl.
  - rewrite app_nil_r. destruct (String.eqb d tgt) eqn:E; [apply String.eqb_eq in E; subst|]; reflexivity.
  - unfold run_calls in *. simpl. rewrite IH. simpl.
    destruct (String.eqb d tgt) eqn:E.
    + rewrite String.eqb_refl. rewrite <- app_assoc. reflexivity.
    + reflexivity.
Qed.

(** C5: [move] streams the documents the filter selects from the source,
    sends one [insertOne] per document into the target with the marker
    removed, counts each as matched and updated, and only then sends one
    [deleteMany] with the same filter; afterwards the source holds no
    document the filter selects, and (for distinct collections) the target
    gained exactly the stripped documents. *)
Theorem move_spec : forall matches st sourceDomain query targetDomain f,
  translateQuery query = Some f ->
  let streamed := filter (matches f) (st sourceDomain) in
  let moved := map strip_hash streamed in
  let calls := (map (CInsertOne targetDomain) moved ++ [CDeleteMany sourceDomain f])%list in
  move matches st sourceDomain query targetDomain
  = Some (calls, {| matched := Z.of_nat (List.length streamed);
                    updated := Z.of_nat (List.length streamed) |}) /\
  Forall (fun d => lookup HASH d = None) moved /\
  (forall d, In d (run_calls matches st calls sourceDomain) -> matches f d = false) /\
  (sourceDomain <> targetDomain ->
   run_calls matches st calls targetDomain = (st targetDomain ++ moved)%list).
Proof.
  intros matches st src query tgt f Hf streamed moved calls.
  split; [|split; [|split]].
  - unfold move. rewrite Hf. rewrite move_stream_spec. simpl.
    unfold calls, moved. rewrite map_map. reflexivity.
  - unfold moved. apply Forall_forall. intros d Hd.
    apply in_map_iff in Hd as [d0 [<- _]]. apply lookup_strip_hash.
  - intros d Hd. unfold calls, run_calls in Hd. rewrite fold_left_app in Hd. simpl in Hd.
    rewrite String.eqb_refl in Hd.
    apply filter_In in Hd as [_ Hd]. apply negb_true_iff in Hd. exact Hd.
  - intros Hne. unfold calls, run_calls. rewrite fold_left_app. simpl.
    destruct (String.eqb tgt src) eqn:E; [apply String.eqb_eq in E; congruence|].
    fold (run_calls matches st (map (CInsertOne tgt) moved)).
    rewrite run_inserts, String.eqb_refl. reflexivity.
Qed.

Lemma move_spec_witness :
  let f := [("status", VStr "old")] in
  let streamed := filter (matches_example f) (store_example "tasks") in
  let moved := map strip_hash streamed in
  let calls := (map (CInsertOne "archive") moved ++ [CDeleteMany "tasks" f])%list in
  move matches_example store_example "tasks" f "archive"
  = Some (calls, {| matched := Z.of_nat (List.length streamed);
                    updated := Z.of_nat (List.length streamed) |}) /\
  Forall (fun d => lookup HASH d = None) moved /\
  (forall d, In d (run_calls matches_example store_example calls "tasks") ->
             matches_example f d = false) /\
  ("tasks" <> "archive" ->
   run_calls matches_example store_example calls "archive" = (store_example "archive" ++ moved)%list).
Proof.
  apply move_spec. reflexivity.
Defined.

(* ------------------------------------------------------------------ *)
(** ** The [traverse] iterator *)

Lemma pull_bound : forall k c ds c',
  pull k c = Returns (Some ds) c' ->
  (List.length ds <= k)%nat /\ ((List.length ds < k)%nat -> hasNext c' = Some false).
Proof.
  induction k as [|k IH]; intros c ds c' H; simpl in H.
  - injection H as <- <-. simpl. split; [lia | intros; lia].
  - destruct (hasNext c) as [[|]|] eqn:Eh; [| |discriminate H].
    + destruct (cursor_next c) as [[[d|] c1]|] eqn:En; [| |discriminate H].
      * destruct (pull k c1) as [|[ds1|] c2] eqn:Ep; try discriminate H.
        injection H as <- <-. destruct (IH _ _ _ Ep) as [H1 H2].
        simpl. split; [lia|]. intros Hlt. apply H2. lia.
      * (* [next()] gave [null] right after [hasNext()] said true *)
        destruct c as [|[d| |] c0]; simpl in Eh, En; try discriminate.
    + injection H as <- <-. simpl. split; [lia|]. intros _. exact Eh.
Qed.

(** C7: one call [next(n)] returns at most [n] documents; fewer only when
    the cursor is exhausted (a fault returns [null], not a short list). *)
Theorem iterator_next_at_most : forall size c ds c',
  iterator_next size c = Returns (Some ds) c' ->
  (List.length ds <= Z.to_nat size)%nat /\
  ((List.length ds < Z.to_nat size)%nat -> hasNext c' = Some false).
Proof. intros size c ds c' H. exact (pull_bound _ _ _ _ H). Qed.

Lemma iterator_next_at_most_witness :
  iterator_next 2 [CDoc [("_id", VStr "a")]; CDoc [("_id", VStr "b")]; CDoc [("_id", VStr "c")]]
  = Returns (Some [[("_id", VStr "a")]; [("_id", VStr "b")]]) [CDoc [("_id", VStr "c")]] /\
  (List.length [[("_id", VStr "a")]; [("_id", VStr "b")]] <= Z.to_nat 2)%nat /\
  ((List.length [[("_id", VStr "a")]; [("_id", VStr "b")]] < Z.to_nat 2)%nat ->
   hasNext [CDoc [("_id", VStr "c")]] = Some false).
Proof.
  split; [reflexivity|].
  apply (iterator_next_at_most 2
           [CDoc [("_id", VStr "a")]; CDoc [("_id", VStr "b")]; CDoc [("_id", VStr "c")]]).
  reflexivity.
Defined.

(** C3 fails: [cursor.hasNext()] runs outside the [try], so a read fault
    raised while fetching the next batch escapes [next(n)]; only a fault
    raised by [cursor.next()] becomes [null]. *)
Theorem iterator_next_fetch_fault_escapes :
  iterator_next 2 [CDoc [("_id", VStr "a")]; CFetchFault] = Raises /\
  iterator_next 1 [CFetchFault] = Raises /\
  iterator_next 2 [CDoc [("_id", VStr "a")]; CDecodeFault] = Returns None [CDecodeFault].
Proof. repeat split; reflexivity. Qed.

(* ------------------------------------------------------------------ *)
(** ** [traverseFullTextContexts] *)

Section FullTextProofs.

Variable context : Type.
Variable getDescendants : string -> list string.
Variable getAncestors : string -> list string.
Variable isMixin : string -> bool.
Variable getFullTextContext : string -> option context.

Lemma set_add_In : forall s x y, In x (set_add s y) <-> In x s \/ x = y.
Proof.
  intros s x y. unfold set_add. destruct (existsb (String.eqb y) s) eqn:E.
  - split; [tauto|]. intros [H|<-]; [exact H|].
    apply existsb_exists in E as [z [Hz Ez]]. apply String.eqb_eq in Ez. subst. exact Hz.
  - rewrite in_app_iff. simpl. split.
    + intros [H|[H|[]]]; [left; exact H | right; symmetry; exact H].
    + intros [H|H]; [left; exact H | right; left; symmetry; exact H].
Qed.

Lemma set_add_fold_In : forall l s x,
  In x (fold_left set_add l s) <-> In x s \/ In x l.
Proof.
  induction l as [|y l IH]; intros s x; simpl; [tauto|].
  rewrite IH, set_add_In. split.
  - intros [[H|H]|H]; [tauto | subst; tauto | tauto].
  - intros [H|[H|H]]; [tauto | subst; tauto | tauto].
Qed.

Lemma mixin_fold_In : forall l s x,
  In x (fold_left (fun desc dd => if isMixin dd then set_add desc dd else desc) l s) <->
  In x s \/ (In x l /\ isMixin x = true).
Proof.
  induction l as [|y l IH]; intros s x; simpl; [tauto|].
  rewrite IH. destruct (isMixin y) eqn:Ey.
  - rewrite set_add_In. split.
    + intros [[H|H]|H]; [tauto | subst; tauto | tauto].
    + intros [H|[[H|H] Hm]]; [tauto | subst; tauto | tauto].
  - split.
    + intros [H|[H Hm]]; tauto.
    + intros [H|[[H|H] Hm]]; [tauto | subst; congruence | tauto].
Qed.

Lemma visit_extends : forall vs c, exists ext, visit context getFullTextContext vs c = (vs ++ ext)%list.
Proof.
  intros vs c. unfold visit. destruct (getFullTextContext c).
  - eexists; reflexivity.
  - exists []. rewrite app_nil_r. reflexivity.
Qed.

Lemma ancestors_fold_spec : forall l acc,
  (exists ext, fst (fold_left (ancestor_step context getDescendants isMixin getFullTextContext) l acc)
               = (fst acc ++ ext)%list) /\
  (forall x, In x (snd acc) \/ (exists a, In a l /\ In x (getDescendants a) /\ isMixin x = true) ->
     In x (snd (fold_left (ancestor_step context getDescendants isMixin getFullTextContext) l acc))).
Proof.
  induction l as [|a l IH]; intros [vs desc]; simpl.
  - split; [exists []; rewrite app_nil_r; reflexivity|].
    intros x [H|[a [[] _]]]. exact H.
  - destruct (IH (visit context getFullTextContext vs a,
                  fold_left (fun desc dd => if isMixin dd then set_add desc dd else desc)
                    (getDescendants a) desc)) as [[ext Hext] Hin].
    split.
    + destruct (visit_extends vs a) as [e1 He1]. simpl in Hext. rewrite Hext, He1.
      exists (e1 ++ ext)%list. rewrite app_assoc. reflexivity.
    + intros x Hx. apply Hin. simpl.
      destruct Hx as [Hx|[a' [[<-|Ha'] [Hd Hm]]]].
      * left. apply mixin_fold_In. left. exact Hx.
      * left. apply mixin_fold_In. right. split; assumption.
      * right. exists a'. auto.
Qed.

Lemma final_fold_spec : forall desc vs,
  (exists ext, fold_left (fun vs d => if isMixin d then visit context getFullTextContext vs d else vs)
                 desc vs = (vs ++ ext)%list) /\
  (forall d c, In d desc -> isMixin d = true -> getFullTextContext d = Some c ->
     In c (fold_left (fun vs d => if isMixin d then visit context getFullTextContext vs d else vs)
             desc vs)).
Proof.
  induction desc as [|d desc IH]; intros vs; simpl.
  - split; [exists []; rewrite app_nil_r; reflexivity | intros ? ? []].
  - destruct (IH (if isMixin d then visit context getFullTextContext vs d else vs))
      as [[ext Hext] Hin].
    split.
    + rewrite Hext. destruct (isMixin d).
      * destruct (visit_extends vs d) as [e1 ->]. exists (e1 ++ ext)%list.
        rewrite app_assoc. reflexivity.
      * exists ext. reflexivity.
    + intros d' c [<-|Hd] Hm Hc.
      * rewrite Hext, Hm. unfold visit. rewrite Hc. apply in_or_app. left.
        apply in_or_app. right. left. reflexivity.
      * exact (Hin d' c Hd Hm Hc).
Qed.

(** C8: [traverseFullTextContexts] passes the object class's own declared
    context to the visitor first, and it passes the declared context of
    every mixin among the descendants of the class and among the
    descendants of each of its ancestors. *)
Theorem traverseFullTextContexts_visits : forall objectClass,
  let visits := fst (traverseFullTextContexts context getDescendants getAncestors isMixin
                       getFullTextContext objectClass) in
  (forall c, getFullTextContext objectClass = Some c -> exists rest, visits = c :: rest) /\
  (forall d c,
     (In d (getDescendants objectClass) \/
      exists a, In a (getAncestors objectClass) /\ In d (getDescendants a)) ->
     isMixin d = true -> getFullTextContext d = Some c -> In c visits).
Proof.
  intros oc visits. unfold visits, traverseFullTextContexts.
  set (v0 := visit context getFullTextContext [] oc).
  set (d0 := set_of (getDescendants oc)).
  destruct (ancestors_fold_spec (getAncestors oc) (v0, d0)) as [[ext Hext] Hdesc].
  destruct (fold_left (ancestor_step context getDescendants isMixin getFullTextContext)
              (getAncestors oc) (v0, d0)) as [v1 d1] eqn:Ef.
  simpl in Hext, Hdesc |- *.
  destruct (final_fold_spec d1 v1) as [[ext2 Hext2] Hfin].
  split.
  - intros c Hc. rewrite Hext2, Hext. unfold v0, visit. rewrite Hc. simpl.
    eexists; reflexivity.
  - intros d c Hd Hm Hc. apply (Hfin d c); [|exact Hm|exact Hc].
    apply Hdesc. destruct Hd as [Hd|[a [Ha Hd]]].
    + left. unfold d0, set_of. apply set_add_fold_In. right. exact Hd.
    + right. exists a. auto.
Qed.

End FullTextProofs.

Lemma traverseFullTextContexts_visits_witness :
  traverseFullTextContexts string ex_descendants ex_ancestors ex_isMixin ex_context "Issue"
  = (["Issue"; "IssueMixin"; "DocMixin"], []) /\
  let visits := fst (traverseFullTextContexts string ex_descendants ex_ancestors ex_isMixin
                       ex_context "Issue") in
  (forall c, ex_context "Issue" = Some c -> exists rest, visits = c :: rest) /\
  (forall d c,
     (In d (ex_descendants "Issue") \/
      exists a, In a (ex_ancestors "Issue") /\ In d (ex_descendants a)) ->
     ex_isMixin d = true -> ex_context d = Some c -> In c visits).
Proof.
  split; [reflexivity|].
  apply (traverseFullTextContexts_visits string ex_descendants ex_ancestors ex_isMixin
           ex_context "Issue").
Defined.

(* ------------------------------------------------------------------ *)
(** ** [loadIndexStageStage] *)

Lemma findAll_head_cons : forall x db sid,
  head (findAll (x :: db) sid)
  = if String.eqb (ist_stageId x) sid then Some x else head (findAll db sid).
Proof. intros x db sid. unfold findAll. simpl. destruct (String.eqb _ _); reflexivity. Qed.

Lemma head_findAll_update : forall db sid id attrs now r',
  head (findAll db sid) = Some r' -> ist_id r' = id ->
  head (findAll (apply_stage_tx db (TxUpdateDoc id sid attrs now)) sid)
  = Some {| ist_id := id; ist_stageId := sid; ist_attributes := attrs; ist_modifiedOn := now |}.
Proof.
  induction db as [|x db IH]; intros sid id attrs now r' H Hid; [discriminate H|].
  change (apply_stage_tx (x :: db) (TxUpdateDoc id sid attrs now)) with
    ((if String.eqb (ist_id x) id
      then {| ist_id := ist_id x; ist_stageId := sid; ist_attributes := attrs;
              ist_modifiedOn := now |}
      else x) :: apply_stage_tx db (TxUpdateDoc id sid attrs now)).
  rewrite findAll_head_cons in H |- *.
  destruct (String.eqb (ist_id x) id) eqn:Ex; cbn [ist_stageId ist_id].
  - rewrite String.eqb_refl. apply String.eqb_eq in Ex. rewrite Ex. reflexivity.
  - destruct (String.eqb (ist_stageId x) sid) eqn:Es.
    + injection H as <-. apply String.eqb_neq in Ex. congruence.
    + exact (IH _ _ _ _ _ H Hid).
Qed.

Lemma head_findAll_create : forall db sid r,
  head (findAll db sid) = None -> ist_stageId r = sid ->
  head (findAll (db ++ [r])%list sid) = Some r.
Proof.
  induction db as [|x db IH]; intros sid r H Hr.
  - change ([] ++ [r])%list with [r].
    rewrite findAll_head_cons, Hr, String.eqb_refl. reflexivity.
  - change ((x :: db) ++ [r])%list with (x :: (db ++ [r]))%list.
    rewrite findAll_head_cons in H |- *.
    destruct (String.eqb (ist_stageId x) sid); [discriminate H|]. exact (IH _ _ H Hr).
Qed.

Lemma current_state_coherent : forall db state sid,
  cache_coherent db sid state ->
  match current_state db state sid with
  | None => head (findAll db sid) = None
  | Some s => exists r', head (findAll db sid) = Some r' /\
                         ist_id r' = ist_id s /\ ist_attributes r' = ist_attributes s
  end.
Proof.
  intros db [r|] sid H; simpl; [exact H|].
  destruct (head (findAll db sid)) as [r|]; [exists r; auto | reflexivity].
Qed.

Lemma index_le_trans : forall a b c, index_le a b -> index_le b c -> index_le a c.
Proof.
  intros [[| | | | |]|] [[| | | | |]|] [[| | | | |]|]; simpl; try tauto; lia.
Qed.

Lemma index_le_refl : forall a, index_is_num a -> index_le a a.
Proof. intros [[| | | | |]|]; simpl; try tauto; lia. Qed.

(** One call, from a cached state that agrees with the store (or none). *)
Lemma stage_call_step : forall db state stageId field newValue freshId now res st' txs,
  cache_coherent db stageId state ->
  index_is_num (stored_index db stageId) ->
  loadIndexStageStage db state stageId field newValue freshId now = (res, st', txs) ->
  let attrs := match current_state db state stageId with
               | Some s => ist_attributes s | None => [] end in
  let db' := apply_stage_txs db txs in
  (deepEqual_attr (lookup field attrs) newValue = true ->
     txs = [] /\ db' = db /\ st' = current_state db state stageId /\
     res = match lookup "index" attrs with
           | Some i => RStr (js_to_string i)
           | None => RBool true
           end) /\
  (deepEqual_attr (lookup field attrs) newValue = false ->
     exists n, ((lookup "index" attrs = None /\ n = 0%Z) \/ lookup "index" attrs = Some (VNum n)) /\
       res = RStr (string_of_Z (n + 1)) /\
       stored_index db' stageId = Some (VNum (n + 1)) /\
       (field <> "index" ->
          exists r, head (findAll db' stageId) = Some r /\
                    lookup field (ist_attributes r) = Some newValue) /\
       (exists data, txs = [match current_state db state stageId with
                            | None => TxCreateDoc freshId stageId data now
                            | Some s => TxUpdateDoc (ist_id s) stageId data now
                            end])) /\
  index_le (stored_index db stageId) (stored_index db' stageId) /\
  index_is_num (stored_index db' stageId) /\
  cache_coherent db' stageId st'.
Proof.
  intros db state sid field v fid now res st' txs Hcoh Hnum Hcall attrs db'.
  pose proof (current_state_coherent db state sid Hcoh) as Hcur.
  unfold loadIndexStageStage in Hcall. fold attrs in Hcall.
  (* the stored index is the index of [attrs] *)
  assert (Hstored : stored_index db sid = lookup "index" attrs).
  { unfold stored_index, attrs. destruct (current_state db state sid) as [s|].
    - destruct Hcur as [r' [-> [_ ->]]]. reflexivity.
    - rewrite Hcur. reflexivity. }
  rewrite Hstored in Hnum |- *.
  destruct (deepEqual_attr (lookup field attrs) v) eqn:Eq.
  - injection Hcall as <- <- <-.
    split; [intros _; repeat split; reflexivity|].
    split; [intros; discriminate|].
    unfold db'. simpl. rewrite Hstored.
    split; [apply index_le_refl; exact Hnum|]. split; [exact Hnum|].
    destruct (current_state db state sid) as [s|] eqn:Ec; simpl; [|exact I].
    exact Hcur.
  - set (newIndex := index_plus_one (lookup "index" attrs)) in Hcall.
    set (data := obj_set [(field, v)] "index" newIndex) in Hcall.
    assert (Hn : exists n, ((lookup "index" attrs = None /\ n = 0%Z) \/
                            lookup "index" attrs = Some (VNum n)) /\
                           newIndex = VNum (n + 1)).
    { unfold newIndex. destruct (lookup "index" attrs) as [[| | | | |]|];
        simpl in Hnum; try contradiction.
      - eexists; split; [right; reflexivity | reflexivity].
      - exists 0%Z; split; [left; auto | reflexivity]. }
    destruct Hn as [n [Hprev HnewIndex]].
    assert (Hdata_index : lookup "index" data = Some (VNum (n + 1))).
    { unfold data. rewrite lookup_obj_set_same, HnewIndex. reflexivity. }
    assert (Hdata_field : field <> "index" -> lookup field data = Some v).
    { intros Hf. unfold data. rewrite lookup_obj_set_other by exact Hf.
      simpl. rewrite String.eqb_refl. reflexivity. }
    clearbody data newIndex.
    assert (Hhead : head (findAll db' sid)
                    = Some {| ist_id := match current_state db state sid with
                                        | Some s => ist_id s | None => fid end;
                              ist_stageId := sid; ist_attributes := data;
                              ist_modifiedOn := now |} /\
                    st' = head (findAll db' sid) /\
                    exists dt, txs = [match current_state db state sid with
                                      | None => TxCreateDoc fid sid dt now
                                      | Some s => TxUpdateDoc (ist_id s) sid dt now
                                      end]).
    { destruct (current_state db state sid) as [s|] eqn:Ec;
        injection Hcall as <- <- <-; unfold db', apply_stage_txs; cbn [fold_left].
      - destruct Hcur as [r' [Hr' [Hid _]]].
        rewrite (head_findAll_update db sid (ist_id s) data now r' Hr' Hid).
        split; [reflexivity|]. split; [reflexivity|]. eexists; reflexivity.
      - unfold apply_stage_tx. rewrite head_findAll_create by (exact Hcur || reflexivity).
        split; [reflexivity|]. split; [reflexivity|]. eexists; reflexivity. }
    destruct Hhead as [Hhead [Hst' Htx]].
    assert (Hstored' : stored_index db' sid = Some (VNum (n + 1))).
    { unfold stored_index. rewrite Hhead. exact Hdata_index. }
    assert (Hres : res = RStr (string_of_Z (n + 1))).
    { destruct (current_state db state sid); injection Hcall as <- _ _;
        rewrite HnewIndex; reflexivity. }
    split; [intros; discriminate|].
    split.
    + intros _. exists n. split; [exact Hprev|]. split; [exact Hres|].
      split; [exact Hstored'|]. split; [|exact Htx].
      intros Hf. eexists. split; [exact Hhead|]. apply Hdata_field. exact Hf.
    + rewrite Hstored'. split; [|split; [exact I|]].
      * destruct Hprev as [[Hi _]|Hi]; rewrite Hi; simpl; [exact I | lia].
      * rewrite Hst', Hhead. unfold cache_coherent. eexists. split; [exact Hhead|]. split; reflexivity.
Qed.

Lemma stage_run_monotone : forall calls db state stageId,
  cache_coherent db stageId state ->
  index_is_num (stored_index db stageId) ->
  index_le (stored_index db stageId) (stored_index (fst (stage_run db state stageId calls)) stageId).
Proof.
  induction calls as [|[[[field v] id] now] calls IH]; intros db state sid Hcoh Hnum; simpl.
  - apply index_le_refl. exact Hnum.
  - unfold stage_call.
    destruct (loadIndexStageStage db state sid field v id now) as [[res st'] txs] eqn:E.
    destruct (stage_call_step db state sid field v id now res st' txs Hcoh Hnum E)
      as [_ [_ [Hle [Hnum' Hcoh']]]].
    eapply index_le_trans; [exact Hle|]. apply IH; assumption.
Qed.

(** C2 (amended): from a store whose index is a number or absent and a
    cached state that is absent or agrees with the stored record:
    an unchanged value (deep equality) returns the stringified index, or
    [true] when there is none, and writes nothing; a changed value returns
    the previous index (default 0) plus one, stringified, and creates or
    updates the record with that index and, for a field other than
    ['index'], the new value under the field; the state returned again
    agrees with the store, and along any sequence of calls each passing the
    state the previous call returned, the stored index never decreases. *)
Theorem loadIndexStageStage_versioning : forall db state stageId,
  cache_coherent db stageId state ->
  index_is_num (stored_index db stageId) ->
  (forall field newValue freshId now res st' txs,
   loadIndexStageStage db state stageId field newValue freshId now = (res, st', txs) ->
   let attrs := match current_state db state stageId with
                | Some s => ist_attributes s | None => [] end in
   let db' := apply_stage_txs db txs in
   (deepEqual_attr (lookup field attrs) newValue = true ->
      txs = [] /\ db' = db /\ st' = current_state db state stageId /\
      res = match lookup "index" attrs with
            | Some i => RStr (js_to_string i)
            | None => RBool true
            end) /\
   (deepEqual_attr (lookup field attrs) newValue = false ->
      exists n, ((lookup "index" attrs = None /\ n = 0%Z) \/ lookup "index" attrs = Some (VNum n)) /\
        res = RStr (string_of_Z (n + 1)) /\
        stored_index db' stageId = Some (VNum (n + 1)) /\
        (field <> "index" ->
           exists r, head (findAll db' stageId) = Some r /\
                     lookup field (ist_attributes r) = Some newValue) /\
        (exists data, txs = [match current_state db state stageId with
                             | None => TxCreateDoc freshId stageId data now
                             | Some s => TxUpdateDoc (ist_id s) stageId data now
                             end])) /\
   index_le (stored_index db stageId) (stored_index db' stageId) /\
   cache_coherent db' stageId st') /\
  (forall calls,
   index_le (stored_index db stageId) (stored_index (fst (stage_run db state stageId calls)) stageId)).
Proof.
  intros db state sid Hcoh Hnum. split.
  - intros field v fid now res st' txs Hcall.
    destruct (stage_call_step db state sid field v fid now res st' txs Hcoh Hnum Hcall)
      as [H1 [H2 [H3 [_ H4]]]].
    split; [exact H1|]. split; [exact H2|]. split; [exact H3|exact H4].
  - intros calls. apply stage_run_monotone; assumption.
Qed.

Lemma loadIndexStageStage_versioning_witness :
  cache_coherent [] "stage-1" None /\
  index_is_num (stored_index [] "stage-1") /\
  loadIndexStageStage [] None "stage-1" "version" (VNum 5) "a" 0
  = (RStr "1",
     Some {| ist_id := "a"; ist_stageId := "stage-1";
             ist_attributes := [("version", VNum 5); ("index", VNum 1)]; ist_modifiedOn := 0 |},
     [TxCreateDoc "a" "stage-1" [("version", VNum 5); ("index", VNum 1)] 0]) /\
  index_le (stored_index [] "stage-1")
    (stored_index (fst (stage_run [] None "stage-1"
                          [("version", VNum 5, "a", 0%Z); ("version", VNum 5, "b", 1%Z);
                           ("version", VNum 7, "c", 2%Z)])) "stage-1").
Proof.
  split; [exact I|]. split; [exact I|]. split; [reflexivity|].
  apply (proj2 (loadIndexStageStage_versioning [] None "stage-1" I I)).
Defined.

(** The spec's example: 5, then 5, then 7 give "1", "1", "2". *)
Example loadIndexStageStage_spec_example :
  let c1 := stage_call [] None "stage-1" "version" (VNum 5) "a" 0 in
  let c2 := stage_call (fst (fst c1)) (snd (fst c1)) "stage-1" "version" (VNum 5) "b" 1 in
  let c3 := stage_call (fst (fst c2)) (snd (fst c2)) "stage-1" "version" (VNum 7) "c" 2 in
  snd c1 = RStr "1" /\ snd c2 = RStr "1" /\ snd c3 = RStr "2" /\
  stored_index (fst (fst c3)) "stage-1" = Some (VNum 2) /\
  lookup "version" (ist_attributes (hd (Build_IndexStageState "" "" [] 0) (fst (fst c3))))
  = Some (VNum 7).
Proof. vm_compute. repeat split. Qed.

(** C2, as stated, fails in two ways. A cached state that is stale (the one
    the first call returned, passed again after two more changes) makes the
    stored index go down from 3 to 2. And for the field ['index'] the
    counter overwrites the new value, so it is not persisted under that
    field. *)
Lemma loadIndexStageStage_stale_cache_decreases :
  let run3 := stage_run [] None "stage-1"
                [("version", VNum 5, "a", 0%Z); ("version", VNum 7, "b", 1%Z);
                 ("version", VNum 9, "c", 2%Z)] in
  let stale := stage_call (fst run3) (Some stage1_first_state) "stage-1" "version" (VNum 11) "d" 3 in
  snd (stage_run [] None "stage-1" [("version", VNum 5, "a", 0%Z)]) = Some stage1_first_state /\
  stored_index (fst run3) "stage-1" = Some (VNum 3) /\
  stored_index (fst (fst stale)) "stage-1" = Some (VNum 2) /\
  ~ index_le (stored_index (fst run3) "stage-1") (stored_index (fst (fst stale)) "stage-1") /\
  lookup "index"
    (ist_attributes (hd stage1_first_state
       (fst (fst (stage_call [] None "stage-1" "index" (VNum 42) "a" 0)))))
  = Some (VNum 1).
Proof.
  vm_compute. split; [reflexivity|]. split; [reflexivity|]. split; [reflexivity|].
  split; [intros H; apply H; reflexivity | reflexivity].
Qed.

(* ------------------------------------------------------------------ *)
(** ** [deleteMany] *)

Lemma Forall2_diag : forall {A : Type} (R : A -> A -> Prop) l l',
  Forall2 R l l' -> l' = l -> forall x, In x l -> R x x.
Proof.
  intros A R l l' H. induction H as [|x0 y0 l0 l0' Hr Hl IH]; intros E x Hin; [destruct Hin|].
  injection E as -> ->. destruct Hin as [<-|Hin]; [exact Hr | exact (IH eq_refl x Hin)].
Qed.

(** [deleteMany] sends its query as given: a ['$like'] field reaches the
    store as the [{$like: ...}] object itself, whereas the filter [update],
    [find], [traverse] and [move] send (the [translateQuery] result) is a
    different one, holding the regular expression instead. *)
Theorem deleteMany_query_untranslated : forall domain q k p rest,
  In (k, VObj (("$like", VStr p) :: rest)) q ->
  deleteMany domain q = [CDeleteMany domain q] /\
  (forall t, translateQuery q = Some t -> t <> q).
Proof.
  intros domain q k p rest Hin. split; [reflexivity|].
  intros t Ht E. pose proof (translateQuery_fields q t Ht) as HF.
  destruct (Forall2_diag _ q t HF E _ Hin) as [_ Hv]. cbn [snd] in Hv.
  rewrite translate_value_like in Hv. discriminate Hv.
Qed.

Lemma deleteMany_query_untranslated_witness :
  let q := [("title", VObj [("$like", VStr "%bug%")])] in
  deleteMany "task" q = [CDeleteMany "task" q] /\
  (forall t, translateQuery q = Some t -> t <> q).
Proof.
  apply (deleteMany_query_untranslated "task" _ "title" "%bug%" []). left. reflexivity.
Defined.

(* ------------------------------------------------------------------ *)
(** ** [move]: what a copy keeps *)

Lemma lookup_obj_delete_other : forall o k k',
  k <> k' -> lookup k (obj_delete o k') = lookup k o.
Proof.
  induction o as [|[k0 v0] o IH]; intros k k' Hne; [reflexivity|]. unfold obj_delete in *. simpl.
  destruct (String.eqb k0 k') eqn:E; simpl.
  - apply String.eqb_eq in E; subst k0.
    destruct (String.eqb k k') eqn:E'; [apply String.eqb_eq in E'; congruence|]. apply IH; exact Hne.
  - destruct (String.eqb k k0); [reflexivity | apply IH; exact Hne].
Qed.

(** The document [move] inserts for a source document agrees with it on
    every key but ['%hash%'], and is the very document when it had no
    marker. *)
Theorem strip_hash_keeps_fields : forall d,
  (forall k, k <> HASH -> lookup k (strip_hash d) = lookup k d) /\
  (obj_has d HASH = false -> strip_hash d = d).
Proof.
  intros d. unfold strip_hash. split.
  - intros k Hk. destruct (obj_has d HASH); [apply lookup_obj_delete_other; exact Hk | reflexivity].
  - intros ->. reflexivity.
Qed.

Lemma strip_hash_keeps_fields_witness :
  let d := [("_id", VStr "a"); ("%hash%", VStr "h1"); ("title", VStr "t")] in
  strip_hash d = [("_id", VStr "a"); ("title", VStr "t")] /\
  lookup "title" (strip_hash d) = lookup "title" d /\
  (obj_has [("_id", VStr "b")] HASH = false -> strip_hash [("_id", VStr "b")] = [("_id", VStr "b")]).
Proof.
  split; [reflexivity|]. split.
  - apply (proj1 (strip_hash_keeps_fields [("_id", VStr "a"); ("%hash%", VStr "h1"); ("title", VStr "t")])).
    discriminate.
  - apply (proj2 (strip_hash_keeps_fields [("_id", VStr "b")])).
Defined.

(* ------------------------------------------------------------------ *)
(** ** The [traverse] iterator: order and faults *)

Lemma pull_docs : forall k ds,
  pull k (map CDoc ds) = Returns (Some (firstn k ds)) (map CDoc (skipn k ds)).
Proof.
  induction k as [|k IH]; intros ds; [reflexivity|].
  destruct ds as [|d ds]; [reflexivity|]. simpl. rewrite IH. reflexivity.
Qed.

(** On a cursor without faults, [next(size)] returns the first [size]
    documents left, in cursor order, and leaves exactly the others; so
    successive calls return each document once, in order ([size <= 0]
    returns [[]] and reads nothing). *)
Theorem iterator_next_in_order : forall size ds,
  iterator_next size (map CDoc ds)
  = Returns (Some (firstn (Z.to_nat size) ds)) (map CDoc (skipn (Z.to_nat size) ds)).
Proof. intros size ds. apply pull_docs. Qed.




(* ------------------------------------------------------------------ *)
(** ** [loadIndexStageStage]: repeated calls and one record per stage *)








Lemma NoDup_snoc : forall {A : Type} (l : list A) x, NoDup l -> ~ In x l -> NoDup (l ++ [x])%list.
Proof.
  intros A l x. induction l as [|a l IH]; intros Hnd Hn; simpl; [constructor; [intros []|constructor]|].
  inversion_clear Hnd as [|? ? Ha Hl]. constructor.
  - rewrite in_app_iff. intros [H|[H|[]]]; [exact (Ha H) | apply Hn; left; symmetry; exact H].
  - apply IH; [exact Hl | intros H; apply Hn; right; exact H].
Qed.





(* ------------------------------------------------------------------ *)
(** ** [getContent] *)

Lemma alookup_aset : forall {A : Type} (o : list (string * A)) k k' v,
  alookup k (aset o k' v) = if String.eqb k' k then Some v else alookup k o.
Proof.
  intros A o. induction o as [|[k0 v0] o IH]; intros k k' v; simpl.
  - rewrite String.eqb_sym. reflexivity.
  - destruct (String.eqb k' k0) eqn:E; simpl.
    + apply String.eqb_eq in E; subst k0. rewrite (String.eqb_sym k k').
      destruct (String.eqb k' k); reflexivity.
    + destruct (String.eqb k k0) eqn:E'.
      * apply String.eqb_eq in E'; subst k0. rewrite E. reflexivity.
      * apply IH.
Qed.

(** Under each key, [getContent] records the content and the attribute of
    the last attribute with that key: [attributeOf + '.' + name] for a
    mixin's attribute, read from the mixin's object in the document,
    [name] otherwise; an absent or [null] value gives [''], and no other
    key is present. *)
Theorem getContent_lookup : forall isMixin attributes doc k,
  alookup k (getContent isMixin attributes doc)
  = match last_with_key isMixin k attributes with
    | Some a => Some (attr_content isMixin doc a, a)
    | None => None
    end /\
  (forall a, isMixin (attr_attributeOf a) = false ->
     match lookup (attr_name a) doc with None | Some VNull => True | _ => False end ->
     attr_content isMixin doc a = "") /\
  (forall a, isMixin (attr_attributeOf a) = true ->
     match js_get (lookup (attr_attributeOf a) doc) (attr_name a) with
     | None | Some VNull => True | _ => False end ->
     attr_content isMixin doc a = "").
Proof.
  intros isMixin attributes doc k. split; [|split].
  - unfold getContent.
    assert (Hgen : forall acc,
      alookup k (fold_left (fun attrs attr => aset attrs (attr_key isMixin attr)
                              (attr_content isMixin doc attr, attr)) attributes acc)
      = match last_with_key isMixin k attributes with
        | Some a => Some (attr_content isMixin doc a, a)
        | None => alookup k acc
        end).
    { induction attributes as [|a rest IH]; intros acc; [reflexivity|].
      simpl. rewrite IH, alookup_aset.
      destruct (last_with_key isMixin k rest); [reflexivity|].
      destruct (String.eqb (attr_key isMixin a) k); reflexivity. }
    rewrite Hgen. destruct (last_with_key isMixin k attributes); reflexivity.
  - intros a Hm Hv. unfold attr_content. rewrite Hm.
    destruct (lookup (attr_name a) doc) as [[| | | | |]|]; try contradiction; reflexivity.
  - intros a Hm Hv. unfold attr_content. rewrite Hm.
    destruct (js_get _ _) as [[| | | | |]|]; try contradiction; reflexivity.
Qed.

Lemma getContent_lookup_witness :
  let isM := fun c => String.eqb c "tracker:mixin:Estimation" in
  let attrs := [{| attr_name := "title"; attr_attributeOf := "tracker:class:Issue" |};
                {| attr_name := "hours"; attr_attributeOf := "tracker:mixin:Estimation" |};
                {| attr_name := "due"; attr_attributeOf := "tracker:class:Issue" |}] in
  let doc := [("title", VStr "Crash"); ("due", VNull);
              ("tracker:mixin:Estimation", VObj [("hours", VNum 3)])] in
  getContent isM attrs doc
  = [("title", ("Crash", {| attr_name := "title"; attr_attributeOf := "tracker:class:Issue" |}));
     ("tracker:mixin:Estimation.hours",
        ("3", {| attr_name := "hours"; attr_attributeOf := "tracker:mixin:Estimation" |}));
     ("due", ("", {| attr_name := "due"; attr_attributeOf := "tracker:class:Issue" |}))] /\
  alookup "due" (getContent isM attrs doc)
  = Some (attr_content isM doc {| attr_name := "due"; attr_attributeOf := "tracker:class:Issue" |},
          {| attr_name := "due"; attr_attributeOf := "tracker:class:Issue" |}) /\
  attr_content isM doc {| attr_name := "due"; attr_attributeOf := "tracker:class:Issue" |} = "".
Proof.
  split; [vm_compute; reflexivity|]. split.
  - exact (proj1 (getContent_lookup _ _ _ "due")).
  - apply (proj1 (proj2 (getContent_lookup (fun c => String.eqb c "tracker:mixin:Estimation")
       [] [("title", VStr "Crash"); ("due", VNull);
           ("tracker:mixin:Estimation", VObj [("hours", VNum 3)])] ""))); exact I || reflexivity.
Defined.

(* ------------------------------------------------------------------ *)
(** ** [createStateDoc] *)

Lemma lookup_distinct_head : forall o k,
  existsb (String.eqb k) (map fst o) = false -> lookup k o = None.
Proof.
  induction o as [|[k' v'] o IH]; intros k H; [reflexivity|].
  simpl in H. apply orb_false_iff in H as [H1 H2]. simpl. rewrite H1. apply IH. exact H2.
Qed.

Lemma spread_lookup : forall data base k,
  keys_distinct (map fst data) = true ->
  lookup k (spread base data)
  = match lookup k data with Some v => Some v | None => lookup k base end.
Proof.
  unfold spread. induction data as [|[k' v'] data IH]; intros base k Hd; [reflexivity|].
  simpl in Hd. apply andb_true_iff in Hd as [Hn Hd]. apply negb_true_iff in Hn.
  simpl. rewrite IH by exact Hd.
  destruct (String.eqb k k') eqn:E.
  - apply String.eqb_eq in E; subst k'. rewrite (lookup_distinct_head data k Hn).
    apply lookup_obj_set_same.
  - apply String.eqb_neq in E.
    destruct (lookup k data); [reflexivity|]. apply lookup_obj_set_other. exact E.
Qed.

(** Every key of [data] overrides the default [createStateDoc] sets for it:
    a key [data] has holds [data]'s value, any other key the default. So
    the [space] is [data.space] whenever [data] has the key, even when it
    is [null] (the [?? plugin.space.DocIndexState] default is overwritten
    by the spread), and the DocIndexState space only when it has not. *)
Theorem createStateDoc_data_overrides :
  forall DocIndexStateClass DocIndexStateSpace SystemAccount id objectClass data now,
  keys_distinct (map fst data) = true ->
  let doc := createStateDoc DocIndexStateClass DocIndexStateSpace SystemAccount
               id objectClass data now in
  (forall k, lookup k doc
             = match lookup k data with
               | Some v => Some v
               | None => lookup k (createStateDoc_base DocIndexStateClass DocIndexStateSpace
                                     SystemAccount id objectClass data now)
               end) /\
  lookup "space" doc = Some (match lookup "space" data with
                             | Some sp => sp
                             | None => VStr DocIndexStateSpace
                             end).
Proof.
  intros C S Sys id oc data now Hd doc. unfold doc, createStateDoc.
  split.
  - intros k. apply spread_lookup. exact Hd.
  - rewrite spread_lookup by exact Hd. unfold createStateDoc_base.
    destruct (lookup "space" data); reflexivity.
Qed.

Lemma createStateDoc_data_overrides_witness :
  keys_distinct (map fst [("space", VNull); ("stages", VObj [])]) = true /\
  createStateDoc "core:class:DocIndexState" "server-core:space:DocIndexState"
    "core:account:System" "doc-1" "tracker:class:Issue"
    [("space", VNull); ("stages", VObj [])] 10
  = [("_class", VStr "core:class:DocIndexState"); ("_id", VStr "doc-1"); ("space", VNull);
     ("objectClass", VStr "tracker:class:Issue"); ("modifiedBy", VStr "core:account:System");
     ("modifiedOn", VNum 10); ("stages", VObj [])] /\
  lookup "space" (createStateDoc "core:class:DocIndexState" "server-core:space:DocIndexState"
    "core:account:System" "doc-1" "tracker:class:Issue"
    [("space", VNull); ("stages", VObj [])] 10) = Some VNull.
Proof.
  split; [reflexivity|]. split; [vm_compute; reflexivity|].
  exact (proj2 (createStateDoc_data_overrides "core:class:DocIndexState"
    "server-core:space:DocIndexState" "core:account:System" "doc-1" "tracker:class:Issue"
    [("space", VNull); ("stages", VObj [])] 10 eq_refl)).
Defined.

(* ------------------------------------------------------------------ *)
(** ** [collectPropagate] and [collectPropagateClasses] *)

Lemma NoDup_set_add : forall s x, NoDup s -> NoDup (set_add s x).
Proof.
  intros s x H. unfold set_add. destruct (existsb (String.eqb x) s) eqn:E; [exact H|].
  apply NoDup_snoc; [exact H|]. intros Hin.
  assert (existsb (String.eqb x) s = true) by (apply existsb_exists; exists x; split;
    [exact Hin | apply String.eqb_refl]).
  congruence.
Qed.

Lemma set_add_mem : forall s x y, In x (set_add s y) <-> In x s \/ x = y.
Proof.
  intros s x y. unfold set_add. destruct (existsb (String.eqb y) s) eqn:E.
  - split; [tauto|]. intros [H|<-]; [exact H|].
    apply existsb_exists in E as [z [Hz Ez]]. apply String.eqb_eq in Ez. subst. exact Hz.
  - rewrite in_app_iff. simpl. split.
    + intros [H|[H|[]]]; [left; exact H | right; symmetry; exact H].
    + intros [H|H]; [left; exact H | right; left; symmetry; exact H].
Qed.

Lemma set_add_fold_mem : forall l s x,
  In x (fold_left set_add l s) <-> In x s \/ In x l.
Proof.
  induction l as [|y l IH]; intros s x; simpl; [tauto|].
  rewrite IH, set_add_mem. split.
  - intros [[H|H]|H]; [tauto | subst; tauto | tauto].
  - intros [H|[H|H]]; [tauto | subst; tauto | tauto].
Qed.

Lemma collect_into_spec : forall (field : FullTextSearchContext -> option (list string)) visits acc,
  NoDup acc ->
  let r := fold_left (fun s fts => match field fts with
                                   | Some l => fold_left set_add l s
                                   | None => s
                                   end) visits acc in
  NoDup r /\
  (forall x, In x r <-> In x acc \/
     exists fts l, In fts visits /\ field fts = Some l /\ In x l).
Proof.
  intros field visits. induction visits as [|fts visits IH]; intros acc Hacc r.
  - split; [exact Hacc|]. intros x. split; [tauto|]. intros [H|[? [? [[] _]]]]. exact H.
  - assert (Hacc' : NoDup (match field fts with
                           | Some l => fold_left set_add l acc
                           | None => acc end)).
    { destruct (field fts) as [l|]; [|exact Hacc]. clear IH r.
      revert acc Hacc. induction l as [|y l IHl]; intros acc Hacc; [exact Hacc|].
      simpl. apply IHl. apply NoDup_set_add. exact Hacc. }
    destruct (IH _ Hacc') as [Hnd Hin]. split; [exact Hnd|].
    intros x. unfold r. simpl. rewrite Hin. split.
    + intros [H|[f [l [Hf [Hl Hx]]]]].
      * destruct (field fts) as [l|] eqn:Ef.
        -- apply set_add_fold_mem in H as [H|H]; [left; exact H|].
           right. exists fts, l. auto.
        -- left. exact H.
      * right. exists f, l. auto.
    + intros [H|[f [l [[<-|Hf] [Hl Hx]]]]].
      * left. destruct (field fts); [apply set_add_fold_mem; left|]; exact H.
      * left. rewrite Hl. apply set_add_fold_mem. right. exact Hx.
      * right. exists f, l. auto.
Qed.

(** [collectPropagate] and [collectPropagateClasses] return each value
    once, and exactly the values listed by the [propagate]
    (resp. [propagateClasses]) of some context the traversal visits. *)
Theorem collectPropagate_union :
  forall getDescendants getAncestors isMixin getFullTextContext objectClass,
  let visits := fst (traverseFullTextContexts FullTextSearchContext getDescendants getAncestors
                       isMixin getFullTextContext objectClass) in
  let p := collectPropagate getDescendants getAncestors isMixin getFullTextContext objectClass in
  let pc := collectPropagateClasses getDescendants getAncestors isMixin getFullTextContext
              objectClass in
  (NoDup p /\ forall x, In x p <->
     exists fts l, In fts visits /\ ftc_propagate fts = Some l /\ In x l) /\
  (NoDup pc /\ forall x, In x pc <->
     exists fts l, In fts visits /\ ftc_propagateClasses fts = Some l /\ In x l).
Proof.
  intros gd ga im gc oc visits p pc.
  split.
  - destruct (collect_into_spec ftc_propagate visits [] (NoDup_nil _)) as [Hnd Hin].
    split; [exact Hnd|]. intros x. unfold p, collectPropagate, collect_into.
    fold visits. rewrite Hin. split; [intros [[]|H]; exact H | intros H; right; exact H].
  - destruct (collect_into_spec ftc_propagateClasses visits [] (NoDup_nil _)) as [Hnd Hin].
    split; [exact Hnd|]. intros x. unfold pc, collectPropagateClasses, collect_into.
    fold visits. rewrite Hin. split; [intros [[]|H]; exact H | intros H; right; exact H].
Qed.

(* ------------------------------------------------------------------ *)
(** ** The account service's RPC route *)

Lemma substring_full : forall t, substring 0 (String.length t) t = t.
Proof. induction t as [|c t IH]; [reflexivity|]. simpl. rewrite IH. reflexivity. Qed.

Lemma substring_zero : forall n s, substring n 0 s = "".
Proof. induction n as [|n IH]; intros [|c s]; simpl; auto. Qed.

(** [extractToken] drops the first seven characters of the
    [Authorization] header without checking them (the ['Bearer '] scheme
    is assumed), a header of at most seven characters gives the empty
    token [''] (not [undefined]), and no header gives [undefined]. *)
Theorem extractToken_slice : forall p t h,
  String.length p = 7 -> (String.length h <= 7)%nat ->
  extractToken (Some (p ++ t)) = Some t /\
  extractToken (Some h) = Some "" /\
  extractToken None = None.
Proof.
  intros p t h Hp Hh. split; [|split; [|reflexivity]].
  - unfold extractToken. f_equal.
    do 7 (destruct p as [|? p]; [discriminate Hp|]). destruct p; [|discriminate Hp].
    simpl. rewrite Nat.sub_0_r. apply substring_full.
  - unfold extractToken. f_equal. replace (String.length h - 7)%nat with 0%nat by lia.
    apply substring_zero.
Qed.

Lemma extractToken_slice_witness :
  String.length "Basic " = 6 /\
  String.length "Bearer " = 7 /\ (String.length "Bearer" <= 7)%nat /\
  extractToken (Some ("Bearer " ++ "eyJhbGciOi")) = Some "eyJhbGciOi" /\
  extractToken (Some "Bearer") = Some "" /\
  extractToken (Some "Basic dXNlcjpwYXNz") = Some "XNlcjpwYXNz".
Proof.
  split; [reflexivity|]. split; [reflexivity|]. split; [simpl; lia|].
  split; [|split].
  - exact (proj1 (extractToken_slice "Bearer " "eyJhbGciOi" "Bearer" eq_refl ltac:(simpl; lia))).
  - exact (proj1 (proj2 (extractToken_slice "Bearer " "" "Bearer" eq_refl ltac:(simpl; lia)))).
  - exact (proj1 (extractToken_slice "Basic d" "XNlcjpwYXNz" "" eq_refl ltac:(simpl; lia))).
Defined.

(** The RPC handler answers only through an existing method, once the
    database connection is there, passing it the token cut from the
    header. For a method name that is neither a method nor an
    [Object.prototype] member, it sets the [UnknownMethod] error body but
    does not return: it goes on to call the missing method and raises. *)
Theorem rpc_handle_unknown_method_raises :
  forall Response methods connected authorization request,
  (forall r, rpc_handle Response methods connected authorization request = RpcResponds Response r ->
     exists method, alookup (rpc_method request) methods = Some method /\ connected = true /\
                    r = method request (extractToken authorization)) /\
  (alookup (rpc_method request) methods = None ->
   existsb (String.eqb (rpc_method request)) object_prototype_members = false ->
   rpc_handle Response methods connected authorization request
   = RpcRaises Response (Some (rpc_id request, rpc_method request))).
Proof.
  intros R methods connected auth req. unfold rpc_handle. split.
  - intros r H. destruct (alookup (rpc_method req) methods) as [m|].
    + destruct connected; [|discriminate H]. injection H as <-. exists m. auto.
    + destruct (existsb _ _); [destruct connected|]; discriminate H.
  - intros -> ->. reflexivity.
Qed.

Lemma rpc_handle_unknown_method_raises_witness :
  let methods := [("getAccountInfo", fun (_ : rpc_request) (tok : option string) => tok)] in
  let req := {| rpc_id := VNum 1; rpc_method := "getAcountInfo" |} in
  alookup (rpc_method req) methods = None /\
  existsb (String.eqb (rpc_method req)) object_prototype_members = false /\
  rpc_handle (option string) methods true (Some "Bearer tok") req
  = RpcRaises (option string) (Some (VNum 1, "getAcountInfo")) /\
  rpc_handle (option string) methods true (Some "Bearer tok")
    {| rpc_id := VNum 2; rpc_method := "getAccountInfo" |}
  = RpcResponds (option string) (Some "tok").
Proof.
  split; [reflexivity|]. split; [reflexivity|]. split; [|reflexivity].
  apply (proj2 (rpc_handle_unknown_method_raises (option string)
    [("getAccountInfo", fun (_ : rpc_request) (tok : option string) => tok)] true (Some "Bearer tok")
    {| rpc_id := VNum 1; rpc_method := "getAcountInfo" |})); reflexivity.
Defined.
